(** * Nickname relay bot (bot.py): a shallow embedding and its properties

    The bot keeps one table [users] in a hosted database, answers the
    commands [/nick] and [/find] and relays group messages under the
    sender's nickname.  The handlers are embedded as programs of a small
    state-and-exception monad over a [World] that holds the table, the
    clock, the outcome of the calls to the database and to the chat
    platform still to come, the calls made so far and the log. *)

From Stdlib Require Import List ZArith NArith Lia Bool String Ascii.
From Stdlib Require Import DecimalString.
From Stdlib Require Import Permutation Sorted.
Import ListNotations.

(** ** Python strings

    A Python [str] is a sequence of Unicode code points; [len] counts
    code points, not bytes. *)

Module PyStr.

Definition str := list N.

(** Literals of the source file are UTF-8; [py] decodes one. *)
Fixpoint decode_utf8 (bs : list N) : str :=
  match bs with
  | [] => []
  | b0 :: r0 =>
    if (b0 <? 128)%N then b0 :: decode_utf8 r0
    else if (b0 <? 224)%N then
      match r0 with
      | b1 :: r1 => ((b0 - 192) * 64 + (b1 - 128))%N :: decode_utf8 r1
      | _ => []
      end
    else if (b0 <? 240)%N then
      match r0 with
      | b1 :: b2 :: r2 =>
        ((b0 - 224) * 4096 + (b1 - 128) * 64 + (b2 - 128))%N :: decode_utf8 r2
      | _ => []
      end
    else
      match r0 with
      | b1 :: b2 :: b3 :: r3 =>
        ((b0 - 240) * 262144 + (b1 - 128) * 4096 + (b2 - 128) * 64 + (b3 - 128))%N
          :: decode_utf8 r3
      | _ => []
      end
  end.

Definition py (s : string) : str :=
  decode_utf8 (map N_of_ascii (list_ascii_of_string s)).

(** [str(n)] for a non-negative integer. *)
Definition str_of_nat (n : nat) : str :=
  py (NilEmpty.string_of_uint (Nat.to_uint n)).

Definition nl : str := [10%N].

(** [len(s)] *)
Definition len (s : str) : nat := List.length s.

(** [sep.join(parts)] *)
Fixpoint join (sep : str) (parts : list str) : str :=
  match parts with
  | [] => []
  | [p] => p
  | p :: rest => p ++ sep ++ join sep rest
  end.

(** [c.isspace()] for one code point (CPython's [_PyUnicode_IsWhitespace]). *)
Definition isspace (c : N) : bool :=
  ((9 <=? c) && (c <=? 13) || (28 <=? c) && (c <=? 32)
   || (c =? 133) || (c =? 160) || (c =? 5760)
   || (8192 <=? c) && (c <=? 8202)
   || (c =? 8232) || (c =? 8233) || (c =? 8239) || (c =? 8287)
   || (c =? 12288))%N.

Fixpoint lstrip (s : str) : str :=
  match s with
  | c :: r => if isspace c then lstrip r else s
  | [] => []
  end.

Definition rstrip (s : str) : str := rev (lstrip (rev s)).

(** [s.strip()] *)
Definition strip (s : str) : str := rstrip (lstrip s).

(** [c in s] for a one-character [c]. *)
Definition contains (c : N) (s : str) : bool := existsb (N.eqb c) s.

(** [s.startswith(p)] *)
Fixpoint startswith (s p : str) : bool :=
  match p, s with
  | [], _ => true
  | c :: p', d :: s' => (c =? d)%N && startswith s' p'
  | _ :: _, [] => false
  end.

End PyStr.
Import PyStr.

(* Literals stay folded under [simpl]. *)
Arguments py : simpl never.
Arguments str_of_nat : simpl never.

(** ** Exceptions, log records, calls to the platform *)

Inductive exn :=
| APIError          (* the database client's [execute()] failed *)
| TelegramError     (* a Bot API request failed *)
| CancelledError.   (* asyncio cancellation: a BaseException, not an Exception *)

(** [isinstance(e, Exception)]: what [except Exception] catches. *)
Definition is_Exception (e : exn) : bool :=
  match e with
  | CancelledError => false
  | _ => true
  end.

Inductive Level := INFO | WARNING | ERROR.

(** The f-strings handed to [logger], by call site, with their fields. *)
Inductive LogMsg :=
| get_nick_failed (e : exn)                       (* bot.py:55 *)
| nick_updated (telegram_id : Z) (game_nick : str) (* bot.py:82 *)
| user_added (telegram_id : Z) (game_nick : str)   (* bot.py:87 *)
| save_nick_failed (e : exn)                      (* bot.py:91 *)
| stats_failed (e : exn)                          (* bot.py:116 *)
| search_failed (e : exn)                         (* bot.py:131 *)
| delete_failed (message_id : Z) (e : exn)        (* bot.py:398 *)
| reminder_failed (e : exn).                      (* bot.py:422 *)

Definition LogRecord := (Level * LogMsg)%type.

Inductive ParseMode := Markdown.

(** What a handler awaits: Bot API requests and [asyncio.sleep]. *)
Inductive BotCall :=
| SendMessage (chat_id : Z) (text : str) (parse_mode : option ParseMode)
              (reply_to_message_id : option Z)
| DeleteMessage (chat_id : Z) (message_id : Z)
| Sleep (seconds : nat).

(** ** The table [users] *)

Record UserRecord := mkUser {
  telegram_id : Z;
  telegram_username : option str;
  telegram_name : str;
  game_nick : str;
  created_at : Z;
  updated_at : Z
}.

(** ** The world a handler runs in *)

Record World := mkWorld {
  users : list UserRecord;          (* rows of the table, in table order *)
  db_faults : list (option exn);    (* outcome of the next [execute()] calls *)
  await_faults : list (option exn); (* outcome of the next awaited calls *)
  clock : nat -> Z;                 (* successive readings of [datetime.now()] *)
  clock_reads : nat;                (* readings taken so far *)
  next_message_id : Z;              (* id the platform gives the next message *)
  calls : list BotCall;             (* awaited calls so far, oldest first *)
  log : list LogRecord              (* log records so far, oldest first *)
}.

Definition set_users (t : list UserRecord) (w : World) : World :=
  mkWorld t (db_faults w) (await_faults w) (clock w) (clock_reads w)
          (next_message_id w) (calls w) (log w).

Definition set_db_faults (f : list (option exn)) (w : World) : World :=
  mkWorld (users w) f (await_faults w) (clock w) (clock_reads w)
          (next_message_id w) (calls w) (log w).

Definition set_await_faults (f : list (option exn)) (w : World) : World :=
  mkWorld (users w) (db_faults w) f (clock w) (clock_reads w)
          (next_message_id w) (calls w) (log w).

Definition set_clock_reads (n : nat) (w : World) : World :=
  mkWorld (users w) (db_faults w) (await_faults w) (clock w) n
          (next_message_id w) (calls w) (log w).

Definition set_next_message_id (i : Z) (w : World) : World :=
  mkWorld (users w) (db_faults w) (await_faults w) (clock w) (clock_reads w)
          i (calls w) (log w).

Definition set_calls (c : list BotCall) (w : World) : World :=
  mkWorld (users w) (db_faults w) (await_faults w) (clock w) (clock_reads w)
          (next_message_id w) c (log w).

Definition set_log (l : list LogRecord) (w : World) : World :=
  mkWorld (users w) (db_faults w) (await_faults w) (clock w) (clock_reads w)
          (next_message_id w) (calls w) l.

(** ** The monad: state that survives an exception *)

Inductive Outcome (A : Type) :=
| Returns (a : A)
| Raises (e : exn).
Arguments Returns {A} a.
Arguments Raises {A} e.

Definition M (A : Type) := World -> Outcome A * World.

Definition ret {A} (a : A) : M A := fun w => (Returns a, w).

Definition bind {A B} (m : M A) (k : A -> M B) : M B :=
  fun w =>
    match m w with
    | (Returns a, w') => k a w'
    | (Raises e, w') => (Raises e, w')
    end.

Declare Scope py_scope.
Delimit Scope py_scope with py.
Notation "x <- m ;; k" := (bind m (fun x => k))
  (at level 61, m at next level, right associativity) : py_scope.
Notation "m ;; k" := (bind m (fun _ => k))
  (at level 61, right associativity) : py_scope.
Open Scope py_scope.

(** [try: body / except Exception as e: handler e] *)
Definition try_except {A} (body : M A) (handler : exn -> M A) : M A :=
  fun w =>
    match body w with
    | (Raises e, w') =>
      if is_Exception e then handler e w' else (Raises e, w')
    | r => r
    end.

(** [try: body / except: handler] (a bare [except] catches everything) *)
Definition try_except_all {A} (body : M A) (handler : M A) : M A :=
  fun w =>
    match body w with
    | (Raises _, w') => handler w'
    | r => r
    end.

Definition logger (lvl : Level) (m : LogMsg) : M unit :=
  fun w => (Returns tt, set_log (log w ++ [(lvl, m)]) w).

(** [datetime.now().isoformat()]: the rendering is injective, the reading
    stands for it. *)
Definition datetime_now : M Z :=
  fun w => (Returns (clock w (clock_reads w)),
            set_clock_reads (S (clock_reads w)) w).

(** ** The database client

    [supabase.table('users')....execute()] is one round trip: it raises
    when the backend fails, otherwise it runs the query on the table. *)

Definition execute {A} (query : list UserRecord -> A * list UserRecord) : M A :=
  fun w =>
    match db_faults w with
    | Some e :: rest => (Raises e, set_db_faults rest w)
    | None :: rest =>
      let (a, t) := query (users w) in
      (Returns a, set_users t (set_db_faults rest w))
    | [] =>
      let (a, t) := query (users w) in
      (Returns a, set_users t w)
    end.

(** The dict [user_data] before [created_at] is added to it. *)
Record UserData := mkUserData {
  ud_telegram_id : Z;
  ud_telegram_username : option str;
  ud_telegram_name : str;
  ud_game_nick : str;
  ud_updated_at : Z
}.

(** [.select(...).eq('telegram_id', tid)] *)
Definition select_eq (tid : Z) (t : list UserRecord)
  : list UserRecord * list UserRecord :=
  (filter (fun r => (telegram_id r =? tid)%Z) t, t).

(** [.update(user_data)] on one row: the columns named in the dict are
    overwritten, [created_at] is not among them. *)
Definition apply_update (d : UserData) (r : UserRecord) : UserRecord :=
  mkUser (ud_telegram_id d) (ud_telegram_username d) (ud_telegram_name d)
         (ud_game_nick d) (created_at r) (ud_updated_at d).

(** [.update(user_data).eq('telegram_id', tid)] *)
Definition update_eq (d : UserData) (tid : Z) (t : list UserRecord)
  : unit * list UserRecord :=
  (tt, map (fun r => if (telegram_id r =? tid)%Z then apply_update d r else r) t).

(** [user_data['created_at'] = ...] followed by [.insert(user_data)] *)
Definition with_created_at (d : UserData) (c : Z) : UserRecord :=
  mkUser (ud_telegram_id d) (ud_telegram_username d) (ud_telegram_name d)
         (ud_game_nick d) c (ud_updated_at d).

Definition insert (r : UserRecord) (t : list UserRecord)
  : unit * list UserRecord :=
  (tt, t ++ [r]).

(** [.select('telegram_id', count='exact')]: the rows and their count. *)
Definition select_count (t : list UserRecord)
  : (list UserRecord * nat) * list UserRecord :=
  ((t, List.length t), t).

(** [.order('created_at', desc=True)]: newest first; rows created at the
    same instant keep their table order. *)
Fixpoint insert_desc (r : UserRecord) (sorted : list UserRecord)
  : list UserRecord :=
  match sorted with
  | [] => [r]
  | s :: rest =>
    if (created_at s <? created_at r)%Z then r :: sorted
    else s :: insert_desc r rest
  end.

Definition order_created_at_desc (t : list UserRecord) : list UserRecord :=
  fold_left (fun acc r => insert_desc r acc) t [].

(** The projection [telegram_name, game_nick, created_at] of a row. *)
Record RecentRow := mkRecent {
  rr_telegram_name : str;
  rr_game_nick : str;
  rr_created_at : Z
}.

Definition select_recent (limit : nat) (t : list UserRecord)
  : list RecentRow * list UserRecord :=
  (map (fun r => mkRecent (telegram_name r) (game_nick r) (created_at r))
       (firstn limit (order_created_at_desc t)), t).

(** The projection [telegram_name, game_nick] of a row. *)
Record FoundRow := mkFound {
  fr_telegram_name : str;
  fr_game_nick : str
}.

(** ** DatabaseManager (bot.py:39-132) *)

Module DatabaseManager.

(** bot.py:43-56 *)
Definition get_user_nick (tid : Z) : M (option str) :=
  try_except
    (data <- execute (select_eq tid) ;;
     match data with
     | r :: _ => ret (Some (game_nick r))
     | [] => ret None
     end)
    (fun e => logger ERROR (get_nick_failed e) ;; ret None).

(** bot.py:59-92 *)
Definition save_user_nick (tid : Z) (username : option str)
           (name game_nick : str) : M bool :=
  try_except
    (existing <- execute (select_eq tid) ;;
     now_updated <- datetime_now ;;
     let user_data := mkUserData tid username name game_nick now_updated in
     match existing with
     | _ :: _ =>
       execute (update_eq user_data tid) ;;
       logger INFO (nick_updated tid game_nick) ;;
       ret true
     | [] =>
       now_created <- datetime_now ;;
       execute (insert (with_created_at user_data now_created)) ;;
       logger INFO (user_added tid game_nick) ;;
       ret true
     end)
    (fun e => logger ERROR (save_nick_failed e) ;; ret false).

Record Stats := mkStats {
  total : nat;
  recent : list RecentRow
}.

(** bot.py:95-117 *)
Definition get_stats : M Stats :=
  try_except
    (response <- execute select_count ;;
     let total := snd response in
     recent <- execute (select_recent 5) ;;
     ret (mkStats total recent))
    (fun e => logger ERROR (stats_failed e) ;; ret (mkStats 0 [])).

Section Search.

(** What the backend's [ilike] filter decides for the pattern
    [%search_text%] on a column value is the backend's affair. *)
Variable ilike : str -> str -> bool.

(** [.or_('game_nick.ilike.%s%,telegram_name.ilike.%s%')] *)
Definition matches (search_text : str) (r : UserRecord) : bool :=
  ilike search_text (game_nick r) || ilike search_text (telegram_name r).

(** [.select('telegram_name, game_nick').or_(...).limit(n)] *)
Definition select_ilike (search_text : str) (limit : nat) (t : list UserRecord)
  : list FoundRow * list UserRecord :=
  (map (fun r => mkFound (telegram_name r) (game_nick r))
       (firstn limit (filter (matches search_text) t)), t).

(** bot.py:120-132 *)
Definition search_nick (search_text : str) : M (list FoundRow) :=
  try_except
    (execute (select_ilike search_text 10))
    (fun e => logger ERROR (search_failed e) ;; ret []).

End Search.

End DatabaseManager.

(** ** The chat platform *)

Inductive ChatType := private | group | supergroup | channel.

Record User := mkTgUser {
  user_id : Z;
  username : option str;
  first_name : str
}.

Record Chat := mkChat {
  chat_id : Z;
  chat_type : ChatType
}.

Record Message := mkMessage {
  message_id : Z;
  chat : Chat;
  text : option str
}.

Record Update := mkUpdate {
  effective_user : User;
  message : Message
}.

Definition effective_chat (update : Update) : Chat := chat (message update).

(** The message object a send returns: enough to delete it again. *)
Record SentMessage := mkSent {
  sent_chat_id : Z;
  sent_message_id : Z
}.

(** An awaited call is recorded, then succeeds or raises. *)
Definition await_call (c : BotCall) : M unit :=
  fun w =>
    let w1 := set_calls (calls w ++ [c]) w in
    match await_faults w with
    | Some e :: rest => (Raises e, set_await_faults rest w1)
    | None :: rest => (Returns tt, set_await_faults rest w1)
    | [] => (Returns tt, w1)
    end.

Definition fresh_message (cid : Z) : M SentMessage :=
  fun w => (Returns (mkSent cid (next_message_id w)),
            set_next_message_id (next_message_id w + 1)%Z w).

(** [context.bot.send_message(chat_id=..., text=..., parse_mode=...)] *)
Definition send_message (cid : Z) (body : str) (parse_mode : option ParseMode)
           (reply_to : option Z) : M SentMessage :=
  await_call (SendMessage cid body parse_mode reply_to) ;;
  fresh_message cid.

(** The message a reply of [update.message] answers.  An explicit
    [reply_to_message_id] is used as given; without one the library's
    [Message.reply_text] quotes the message it belongs to in every chat
    that is not private, and quotes nothing in a private chat. *)
Definition reply_target (update : Update) (reply_to : option Z) : option Z :=
  match reply_to with
  | Some given => Some given
  | None =>
    match chat_type (chat (message update)) with
    | private => None
    | _ => Some (message_id (message update))
    end
  end.

(** [update.message.reply_text(...)]: a send to the chat of the message;
    [reply_to] is the [reply_to_message_id] argument, [None] when the
    call does not pass it. *)
Definition reply_text (update : Update) (body : str)
           (parse_mode : option ParseMode) (reply_to : option Z)
  : M SentMessage :=
  send_message (chat_id (chat (message update))) body parse_mode
               (reply_target update reply_to).

(** [update.message.delete()] *)
Definition delete (m : Message) : M unit :=
  await_call (DeleteMessage (chat_id (chat m)) (message_id m)).

(** [sent_message.delete()] *)
Definition delete_sent (m : SentMessage) : M unit :=
  await_call (DeleteMessage (sent_chat_id m) (sent_message_id m)).

(** [asyncio.sleep(seconds)] *)
Definition sleep (seconds : nat) : M unit := await_call (Sleep seconds).

(** ** Reply texts *)

Module Texts.

(** bot.py:181-185 *)
Definition current_nick_text (current_nick : str) : str :=
  py "🎮 **Твой текущий ник:** " ++ current_nick ++ nl ++ nl
  ++ py "Чтобы изменить, напиши:" ++ nl
  ++ py "`/nick НовыйИгровойНик`".

(** bot.py:189-197 *)
Definition set_nick_prompt : str :=
  py "📝 **Установи игровой ник:**" ++ nl ++ nl
  ++ py "Напиши: `/nick ТвойНик`" ++ nl ++ nl
  ++ py "Примеры:" ++ nl
  ++ py "• `/nick ProPlayer`" ++ nl
  ++ py "• `/nick КрутойГеймер`" ++ nl
  ++ py "• `/nick Охотник23`" ++ nl ++ nl
  ++ py "⚠️ **Требования:**" ++ nl
  ++ py "• От 2 до 32 символов" ++ nl
  ++ py "• Без запрещенных символов".

(** bot.py:207 *)
Definition too_short : str := py "❌ Слишком короткий ник. Минимум 2 символа.".

(** bot.py:211 *)
Definition too_long : str := py "❌ Слишком длинный ник. Максимум 32 символа.".

(** bot.py:218 *)
Definition forbidden (char : N) : str :=
  py "❌ Ник содержит запрещенный символ: " ++ [char].

(** bot.py:234-241 *)
Definition saved (first_name game_nick : str) (total : nat) : str :=
  py "✅ **Отлично, " ++ first_name ++ py "!**" ++ nl ++ nl
  ++ py "🎮 Твой игровой ник: **" ++ game_nick ++ py "**" ++ nl ++ nl
  ++ py "📊 Всего игроков в базе: **" ++ str_of_nat total ++ py "**" ++ nl ++ nl
  ++ py "**Что дальше:**" ++ nl
  ++ py "1. Добавь меня в группу как администратора" ++ nl
  ++ py "2. Дай права на удаление сообщений" ++ nl
  ++ py "3. Пиши в группе - я подпишу твои сообщения!" ++ nl ++ nl
  ++ py "🔄 Изменить ник: `/nick НовыйНик`".

(** bot.py:246 *)
Definition not_saved : str :=
  py "❌ Не удалось сохранить ник. Попробуй позже или обратись к администратору.".

(** bot.py:318-323 *)
Definition find_usage : str :=
  py "🔍 **Поиск игроков:**" ++ nl ++ nl
  ++ py "Напиши: `/find ник_или_имя`" ++ nl ++ nl
  ++ py "Примеры:" ++ nl
  ++ py "• `/find pro` - найдет ProPlayer, ProGamer и т.д." ++ nl
  ++ py "• `/find алекс` - найдет Алексей, Александр" ++ nl
  ++ py "• `/find 007` - найдет по цифрам в нике".

(** bot.py:332 *)
Definition found_header (search_text : str) : str :=
  py "🔍 **Найдено по запросу '" ++ search_text ++ py "':**" ++ nl ++ nl.

(** bot.py:334 *)
Definition found_line (idx : nat) (user : FoundRow) : str :=
  str_of_nat idx ++ py ". **" ++ fr_game_nick user ++ py "** ("
  ++ fr_telegram_name user ++ py ")" ++ nl.

(** bot.py:337 *)
Definition and_more (omitted : nat) : str :=
  nl ++ py "... и еще " ++ str_of_nat omitted ++ py " результатов".

(** bot.py:339 *)
Definition nothing_found (search_text : str) : str :=
  py "❌ По запросу '" ++ search_text ++ py "' ничего не найдено." ++ nl ++ nl
  ++ py "Попробуй другой запрос.".

(** bot.py:390 *)
Definition relayed (game_nick message_text : str) : str :=
  py "**🎮 " ++ game_nick ++ py ":** " ++ message_text.

(** bot.py:410-412 *)
Definition reminder (first_name : str) : str :=
  py "👤 " ++ first_name ++ py ", для отправки сообщений нужен игровой ник!"
  ++ nl ++ nl
  ++ py "Напиши мне в личные сообщения:" ++ nl
  ++ py "`/nick ТвойИгровойНик`".

End Texts.

(** ** Command handlers *)

(** bot.py:215: the characters less-than, greater-than, ampersand, double
    quote, apostrophe, backtick and backslash, in this order. *)
Definition forbidden_chars : list N := [60; 62; 38; 34; 39; 96; 92]%N.

(** bot.py:216-219: the loop, stopped by its [return]. *)
Fixpoint first_forbidden (chars : list N) (game_nick : str) : option N :=
  match chars with
  | [] => None
  | char :: rest =>
    if contains char game_nick then Some char
    else first_forbidden rest game_nick
  end.

(** bot.py:173-247; [args] is [context.args]. *)
Definition nick_command (update : Update) (args : list str) : M unit :=
  let user := effective_user update in
  match args with
  | [] =>
    current_nick <- DatabaseManager.get_user_nick (user_id user) ;;
    match current_nick with
    | Some ((_ :: _) as nick) =>
      reply_text update (Texts.current_nick_text nick) (Some Markdown) None ;;
      ret tt
    | _ =>
      reply_text update Texts.set_nick_prompt (Some Markdown) None ;;
      ret tt
    end
  | _ :: _ =>
    let game_nick := strip (join (py " ") args) in
    if len game_nick <? 2 then
      reply_text update Texts.too_short None None ;; ret tt
    else if 32 <? len game_nick then
      reply_text update Texts.too_long None None ;; ret tt
    else
      match first_forbidden forbidden_chars game_nick with
      | Some char =>
        reply_text update (Texts.forbidden char) None None ;; ret tt
      | None =>
        success <- DatabaseManager.save_user_nick
                     (user_id user) (username user) (first_name user) game_nick ;;
        if success : bool then
          stats <- DatabaseManager.get_stats ;;
          reply_text update
            (Texts.saved (first_name user) game_nick (DatabaseManager.total stats))
            (Some Markdown) None ;;
          ret tt
        else
          reply_text update Texts.not_saved None None ;; ret tt
      end
  end.

(** [enumerate(rows, 1)] *)
Definition enumerate1 {A} (rows : list A) : list (nat * A) :=
  combine (seq 1 (List.length rows)) rows.

(** bot.py:331-339: the reply of [/find] for the rows the search gave. *)
Definition find_response (search_text : str) (results : list FoundRow) : str :=
  match results with
  | _ :: _ =>
    Texts.found_header search_text
    ++ List.concat (map (fun p => Texts.found_line (fst p) (snd p))
                   (enumerate1 (firstn 10 results)))
    ++ (if 10 <? List.length results
        then Texts.and_more (List.length results - 10)
        else [])
  | [] => Texts.nothing_found search_text
  end.

Section Find.

Variable ilike : str -> str -> bool.

(** bot.py:314-341 *)
Definition find_command (update : Update) (args : list str) : M unit :=
  match args with
  | [] =>
    reply_text update Texts.find_usage (Some Markdown) None ;; ret tt
  | _ :: _ =>
    let search_text := join (py " ") args in
    results <- DatabaseManager.search_nick ilike search_text ;;
    reply_text update (find_response search_text results) (Some Markdown) None ;;
    ret tt
  end.

End Find.

(** bot.py:369-422 *)
Definition handle_group_message (update : Update) : M unit :=
  let msg := message update in
  match chat_type (chat msg) with
  | group | supergroup =>
    if match text msg with
       | Some t => startswith t (py "/")
       | None => false
       end
    then ret tt
    else
      let user := effective_user update in
      let message_text := match text msg with Some t => t | None => [] end in
      game_nick <- DatabaseManager.get_user_nick (user_id user) ;;
      match game_nick with
      | Some ((_ :: _) as nick) =>
        sent_message <- send_message (chat_id (effective_chat update))
                          (Texts.relayed nick message_text) (Some Markdown) None ;;
        try_except
          (delete msg)
          (fun e =>
             logger WARNING (delete_failed (message_id msg) e) ;;
             try_except_all (delete_sent sent_message) (ret tt))
      | _ =>
        try_except
          (reminder <- reply_text update (Texts.reminder (first_name user))
                         (Some Markdown) (Some (message_id msg)) ;;
           sleep 15 ;;
           delete_sent reminder)
          (fun e => logger ERROR (reminder_failed e))
      end
  | _ => ret tt
  end.

(** * Vocabulary of the statements, and the worlds of the examples *)

(** The first failure among the next [n] database round trips. *)
Fixpoint first_fault (n : nat) (faults : list (option exn)) : option exn :=
  match n, faults with
  | S _, Some e :: _ => Some e
  | S k, None :: rest => first_fault k rest
  | _, _ => None
  end.

(** Every failure still to come is an [Exception]. *)
Definition all_Exceptions (faults : list (option exn)) : Prop :=
  Forall (fun f => match f with
                   | Some e => is_Exception e = true
                   | None => True
                   end) faults.

(** Rows of one identity in a table. *)
Definition rows_of (tid : Z) (t : list UserRecord) : list UserRecord :=
  filter (fun r => (telegram_id r =? tid)%Z) t.

(** The table after the update of [save_user_nick]. *)
Definition updated_table (tid : Z) (uname : option str) (name nick : str)
           (now : Z) (t : list UserRecord) : list UserRecord :=
  map (fun r => if (telegram_id r =? tid)%Z
                then mkUser tid uname name nick (created_at r) now
                else r) t.

(** The world of the examples: an empty table, a backend and a platform
    that answer, and a clock that advances by one unit per reading. *)
Definition ticking_world : World :=
  mkWorld [] [] [] (fun n => (1000 + Z.of_nat n)%Z) 0 500%Z [] [].

(** A table with one row: Alice is Hero, created at 900, last saved at 950. *)
Definition hero_world : World :=
  set_users [mkUser 7 (Some (py "alice")) (py "Alice") (py "Hero") 900 950]
            ticking_world.

(** A backend that is down for the next two round trips. *)
Definition backend_down (w : World) : World :=
  set_db_faults [Some APIError; Some APIError] w.

(** The handler did not touch the store: no round trip was made, the clock
    was not read and nothing was logged. *)
Definition store_untouched (w w' : World) : Prop :=
  users w' = users w /\ db_faults w' = db_faults w
  /\ clock_reads w' = clock_reads w /\ log w' = log w.

(** The only call the handler awaited is one plain reply with [body],
    sent as [reply_text] sends it when no reply target is passed. *)
Definition replied_only (update : Update) (body : str) (w w' : World) : Prop :=
  calls w' = calls w
             ++ [SendMessage (chat_id (chat (message update))) body None
                             (reply_target update None)].

(** The candidate nickname of [/nick] with arguments (bot.py:203). *)
Definition candidate (args : list str) : str := strip (join (py " ") args).

(** Alice writes in a group chat. *)
Definition alice : User := mkTgUser 7 (Some (py "alice")) (py "Alice").

Definition alice_says (body : string) : Update :=
  mkUpdate alice (mkMessage 42 (mkChat (-100) group) (Some (py body))).

(** The forbidden character that stands first in the nickname itself. *)
Definition earliest_in_nick (game_nick : str) : option N :=
  find (fun c => contains c forbidden_chars) game_nick.

(** The update is a message in a group or a supergroup. *)
Definition in_group (update : Update) : Prop :=
  chat_type (chat (message update)) = group
  \/ chat_type (chat (message update)) = supergroup.

(** The message carries the text [body], which is not a command. *)
Definition non_command_text (update : Update) (body : str) : Prop :=
  text (message update) = Some body /\ startswith body (py "/") = false.

(** The sender's first row in the table carries the nickname [nick]. *)
Definition has_nick (w : World) (tid : Z) (nick : str) : Prop :=
  exists r rest, rows_of tid (users w) = r :: rest /\ game_nick r = nick.

(** The message the relay posts for [nick] and [body]. *)
Definition relay_post (update : Update) (nick body : str) : BotCall :=
  SendMessage (chat_id (chat (message update))) (Texts.relayed nick body)
              (Some Markdown) None.

(** The deletion of the message that came in. *)
Definition delete_original (update : Update) : BotCall :=
  DeleteMessage (chat_id (chat (message update))) (message_id (message update)).

Definition is_delete (c : BotCall) : Prop :=
  exists cid mid, c = DeleteMessage cid mid.

(** The platform lets the post through, refuses the deletion of the
    original and refuses the deletion of the post as well. *)
Definition no_delete_rights (w : World) : World :=
  set_await_faults [None; Some TelegramError; Some TelegramError] w.

(** The calls of the reminder flow, in order: the reminder as a reply to
    the original message, the pause of 15 seconds, the deletion of the
    reminder. *)
Definition reminder_calls (update : Update) (w : World) : list BotCall :=
  [SendMessage (chat_id (chat (message update)))
               (Texts.reminder (first_name (effective_user update)))
               (Some Markdown) (Some (message_id (message update)));
   Sleep 15;
   DeleteMessage (chat_id (chat (message update))) (next_message_id w)].

(** One matcher the backend may implement, for the examples: the text
    occurs in the column value, letters A to Z compared without case. *)
Definition ascii_lower (c : N) : N :=
  if ((65 <=? c) && (c <=? 90))%N then (c + 32)%N else c.

Fixpoint occurs_at_head (needle hay : str) : bool :=
  match needle, hay with
  | [], _ => true
  | c :: needle', d :: hay' =>
    (ascii_lower c =? ascii_lower d)%N && occurs_at_head needle' hay'
  | _ :: _, [] => false
  end.

Fixpoint ascii_ilike (needle hay : str) : bool :=
  occurs_at_head needle hay
  || match hay with
     | [] => false
     | _ :: hay' => ascii_ilike needle hay'
     end.

(** Eleven players, Pro1 to Pro11. *)
Definition crowded_world : World :=
  set_users (map (fun i => mkUser (Z.of_nat i) None (py "P")
                                  (py "Pro" ++ str_of_nat i) 0 0)
                 (seq 1 11))
            ticking_world.

(** The numbered lines of a reply of [/find]. *)
Definition found_lines (rows : list FoundRow) : str :=
  List.concat (map (fun p => Texts.found_line (fst p) (snd p)) (enumerate1 rows)).

(** * The other handlers *)

(** ** Their reply texts *)

Module Pages.

(** bot.py:142-145 *)
Definition welcome_head (first_name : str) : str :=
  py "👋 **Привет, " ++ first_name ++ py "!**" ++ nl ++ nl
  ++ py "Я бот для отображения игровых ников в Telegram группах." ++ nl
  ++ nl.

(** bot.py:148-153 *)
Definition welcome_known (current_nick : str) : str :=
  py "✅ Твой текущий ник: **" ++ current_nick ++ py "**" ++ nl ++ nl
  ++ py "📝 Изменить: `/nick НовыйНик`" ++ nl ++ py "📊 Статистика: `/stats`"
  ++ nl ++ py "🔍 Найти игрока: `/find ник`" ++ nl ++ nl.

(** bot.py:155-161 *)
Definition welcome_new : str :=
  py "🎮 **Чтобы начать:**" ++ nl
  ++ py "1. Установи игровой ник: `/nick ТвойНик`" ++ nl
  ++ py "2. Добавь меня в группу как администратора" ++ nl
  ++ py "3. Пиши в группе - я подпишу твои сообщения!" ++ nl ++ nl
  ++ py "📝 Пример: `/nick КрутойИгрок`" ++ nl ++ nl.

(** bot.py:163-169 *)
Definition welcome_tail : str :=
  py "⚙️ **Техническая информация:**" ++ nl ++ py "• База данных: Supabase"
  ++ nl ++ py "• Хостинг: Railway" ++ nl ++ py "• Код: GitHub" ++ nl ++ nl
  ++ py "Напиши `/help` для всех команд".

(** bot.py:272-274 *)
Definition my_nick (current_nick reg_date : str) : str :=
  py "🎮 **Твой игровой ник:** " ++ current_nick ++ reg_date ++ nl ++ nl
  ++ py "Изменить: `/nick НовыйНик`" ++ nl
  ++ py "Посмотреть статистику: `/stats`".

(** bot.py:279-282 *)
Definition no_nick : str :=
  py "❌ У тебя еще нет игрового ника." ++ nl ++ nl
  ++ py "Установи его командой:" ++ nl ++ py "`/nick ТвойИгровойНик`" ++ nl
  ++ nl ++ py "Пример: `/nick Игрок007`".

(** bot.py:290-296 *)
Definition stats_head (total : nat) : str :=
  py "📊 **Статистика бота:**" ++ nl ++ nl ++ py "👥 **Всего игроков:** "
  ++ str_of_nat total ++ nl ++ py "🗄️ **База данных:** Supabase" ++ nl
  ++ py "🚂 **Хостинг:** Railway" ++ nl ++ py "💾 **Хранилище:** PostgreSQL"
  ++ nl ++ nl.

(** bot.py:299 *)
Definition stats_recent_title : str :=
  py "🆕 **Последние игроки:**" ++ nl.

(** bot.py:306 *)
Definition today : str :=
  py "сегодня".

(** bot.py:308 *)
Definition stats_line (idx : nat) (user : RecentRow) (date_str : str) : str :=
  str_of_nat idx ++ py ". " ++ rr_game_nick user ++ py " ("
  ++ rr_telegram_name user ++ py ") - " ++ date_str ++ nl.

(** bot.py:310 *)
Definition stats_tail : str :=
  nl ++ py "🔍 Найти игрока: `/find ник`".

(** bot.py:346-364 *)
Definition help_text : str :=
  py "🆘 **Доступные команды:**" ++ nl ++ nl
  ++ py "`/start` - Начало работы с ботом" ++ nl
  ++ py "`/nick [ник]` - Установить/изменить игровой ник" ++ nl
  ++ py "`/mynick` - Показать текущий ник" ++ nl
  ++ py "`/stats` - Статистика бота и игроков" ++ nl
  ++ py "`/find [текст]` - Поиск игрока по нику или имени" ++ nl
  ++ py "`/help` - Эта справка" ++ nl ++ nl ++ py "**📖 Как использовать:**"
  ++ nl ++ py "1. Установи ник через `/nick ТвойНик`" ++ nl
  ++ py "2. Добавь бота в группу как администратора" ++ nl
  ++ py "3. Дай права: удаление и отправка сообщений" ++ nl
  ++ py "4. Пиши в группе - бот подпишет твои сообщения!" ++ nl ++ nl
  ++ py "**⚙️ Техническая информация:**" ++ nl
  ++ py "• База данных: Supabase (PostgreSQL)" ++ nl
  ++ py "• Хостинг: Railway" ++ nl ++ py "• Исходный код: GitHub" ++ nl
  ++ py "• Авто-бэкапы: ежедневно" ++ nl ++ nl ++ py "**📞 Поддержка:**"
  ++ nl ++ py "Проблемы с ботом? Обратись к администратору.".

(** bot.py:476-481 *)
Definition private_hint : str :=
  py "💬 **Я бот для игровых ников!**" ++ nl ++ nl ++ py "Доступные команды:"
  ++ nl ++ py "`/start` - Начало работы" ++ nl
  ++ py "`/nick` - Установить ник" ++ nl ++ py "`/help` - Все команды" ++ nl
  ++ nl ++ py "Добавь меня в группу для работы!".

End Pages.

(** ** start, mynick, stats, help and the private hint *)

(** bot.py:135-171 *)
Definition start_command (update : Update) : M unit :=
  let user := effective_user update in
  current_nick <- DatabaseManager.get_user_nick (user_id user) ;;
  let welcome_text :=
    Pages.welcome_head (first_name user)
    ++ match current_nick with
       | Some ((_ :: _) as nick) => Pages.welcome_known nick
       | _ => Pages.welcome_new
       end
    ++ Pages.welcome_tail in
  reply_text update welcome_text (Some Markdown) None ;;
  ret tt.

Section Dates.

(** [datetime.fromisoformat(stamp.replace('Z', '+00:00')).strftime(fmt)]
    on a stored timestamp: the text, or [None] when the call raises.  In
    what form the backend hands a timestamp back, and so whether it
    parses, is the backend's affair. *)
Variable format_date : str -> Z -> option str.

(** bot.py:249-284.  The date lookup sits in a [try] with a bare
    [except] that resets [reg_date] to the empty string. *)
Definition mynick_command (update : Update) : M unit :=
  let user := effective_user update in
  current_nick <- DatabaseManager.get_user_nick (user_id user) ;;
  match current_nick with
  | Some ((_ :: _) as nick) =>
    reg_date <- try_except_all
                  (data <- execute (select_eq (user_id user)) ;;
                   match data with
                   | r :: _ =>
                     match format_date (py " (%d.%m.%Y)") (created_at r) with
                     | Some formatted => ret formatted
                     | None => ret []
                     end
                   | [] => ret []
                   end)
                  (ret []) ;;
    reply_text update (Pages.my_nick nick reg_date) (Some Markdown) None ;;
    ret tt
  | _ =>
    reply_text update Pages.no_nick (Some Markdown) None ;;
    ret tt
  end.

(** bot.py:302-306 *)
Definition date_str (user : RecentRow) : str :=
  match format_date (py "%d.%m") (rr_created_at user) with
  | Some formatted => formatted
  | None => Pages.today
  end.

(** bot.py:290-310: the reply of [/stats] for what [get_stats] gave. *)
Definition stats_response (stats : DatabaseManager.Stats) : str :=
  Pages.stats_head (DatabaseManager.total stats)
  ++ match DatabaseManager.recent stats with
     | _ :: _ =>
       Pages.stats_recent_title
       ++ List.concat
            (map (fun p => Pages.stats_line (fst p) (snd p) (date_str (snd p)))
                 (enumerate1 (firstn 5 (DatabaseManager.recent stats))))
     | [] => []
     end
  ++ Pages.stats_tail.

(** bot.py:286-312 *)
Definition stats_command (update : Update) : M unit :=
  stats <- DatabaseManager.get_stats ;;
  reply_text update (stats_response stats) (Some Markdown) None ;;
  ret tt.

End Dates.

(** bot.py:343-367 *)
Definition help_command (update : Update) : M unit :=
  reply_text update Pages.help_text (Some Markdown) None ;;
  ret tt.

(** bot.py:474-482 *)
Definition handle_private_message (update : Update) : M unit :=
  reply_text update Pages.private_hint None None ;;
  ret tt.

(** ** Vocabulary of the further statements *)

(** A program that leaves the table as it found it, in every world. *)
Definition read_only {A} (m : M A) : Prop :=
  forall w, users (snd (m w)) = users w.

(** The nickname passes the checks of [/nick]: 2 to 32 characters, none
    of them forbidden. *)
Definition valid_nick (s : str) : bool :=
  (2 <=? len s) && (len s <=? 32)
  && forallb (fun c => negb (contains c s)) forbidden_chars.

(** Every nickname in the table passes the checks of [/nick]. *)
Definition nicks_valid (t : list UserRecord) : Prop :=
  forall r, In r t -> valid_nick (game_nick r) = true.

(** No identity has two rows. *)
Definition one_row_each (t : list UserRecord) : Prop :=
  NoDup (map telegram_id t).

(** [a] may stand before [b] in a list ordered newest first. *)
Definition not_older (a b : UserRecord) : Prop :=
  (created_at b <= created_at a)%Z.

(** The projection of a row that [get_stats] returns. *)
Definition recent_of (r : UserRecord) : RecentRow :=
  mkRecent (telegram_name r) (game_nick r) (created_at r).

(** The projection of a row that [search_nick] returns. *)
Definition found_of (r : UserRecord) : FoundRow :=
  mkFound (telegram_name r) (game_nick r).

(** The reminder as the handler posts it. *)
Definition reminder_post (update : Update) : BotCall :=
  SendMessage (chat_id (chat (message update)))
              (Texts.reminder (first_name (effective_user update)))
              (Some Markdown) (Some (message_id (message update))).

(** A reply in Markdown to the chat of the update, sent as [reply_text]
    sends it when no reply target is passed. *)
Definition markdown_reply (update : Update) (body : str) : BotCall :=
  SendMessage (chat_id (chat (message update))) body (Some Markdown)
              (reply_target update None).

(** Alice writes to the bot in private. *)
Definition alice_whispers (body : string) : Update :=
  mkUpdate alice (mkMessage 43 (mkChat 7 private) (Some (py body))).

(** Bob, who has no row, writes in the group. *)
Definition bob : User := mkTgUser 8 None (py "Bob").

Definition bob_says (body : string) : Update :=
  mkUpdate bob (mkMessage 44 (mkChat (-100) group) (Some (py body))).

(** A table of three rows created at 10, 30 and 20. *)
Definition trio_world : World :=
  set_users [mkUser 1 None (py "Ann") (py "ProPlayer") 10 10;
             mkUser 2 None (py "Ben") (py "ProGamer") 30 30;
             mkUser 3 None (py "Cy") (py "Zed") 20 20]
            ticking_world.

(** A formatter for the examples: the reading in decimal, whatever the
    format. *)
Definition decimal_date (fmt : str) (stamp : Z) : option str :=
  Some (str_of_nat (Z.to_nat stamp)).

(** What [/nick] does once the candidate has passed the checks. *)
Definition after_save (update : Update) (game_nick : str) (success : bool)
  : M unit :=
  if success then
    stats <- DatabaseManager.get_stats ;;
    reply_text update
      (Texts.saved (first_name (effective_user update)) game_nick
                   (DatabaseManager.total stats))
      (Some Markdown) None ;;
    ret tt
  else
    reply_text update Texts.not_saved None None ;; ret tt.

(** The backend answers the save and is down for the count. *)
Definition down_after_save (w : World) : World :=
  set_db_faults [None; None; Some APIError] w.

(** Bob has a row, with an empty nickname. *)
Definition blank_world : World :=
  set_users [mkUser 8 None (py "Bob") [] 900 900] ticking_world.

(** The platform refuses the next call. *)
Definition platform_down (w : World) : World :=
  set_await_faults [Some TelegramError] w.

(** The backend answers the first round trip and is cut off during the
    second. *)
Definition cut_off_second (w : World) : World :=
  set_db_faults [None; Some CancelledError] w.

(** * Properties *)

(** ** Running the primitives *)

Lemma all_Exceptions_tail f faults :
  all_Exceptions (f :: faults) -> all_Exceptions faults.
Proof. intros H. inversion H. assumption. Qed.

Lemma all_Exceptions_head e faults :
  all_Exceptions (Some e :: faults) -> is_Exception e = true.
Proof. intros H. inversion H. assumption. Qed.

Lemma filter_none {A} (p : A -> bool) (l : list A) :
  (forall x, In x l -> p x = false) -> filter p l = [].
Proof.
  induction l as [|a l IH]; intros H; simpl; [reflexivity|].
  rewrite (H a (or_introl eq_refl)). apply IH.
  intros x Hx. apply H. right. exact Hx.
Qed.

Lemma filter_some {A} (p : A -> bool) (l : list A) x :
  In x l -> p x = true -> filter p l <> [].
Proof.
  intros Hin Hp Hnil.
  assert (Hx : In x (filter p l)) by (apply filter_In; split; assumption).
  rewrite Hnil in Hx. exact Hx.
Qed.

Lemma select_eq_new tid t :
  (forall r, In r t -> telegram_id r <> tid) ->
  fst (select_eq tid t) = [].
Proof.
  intros H. apply filter_none. intros r Hr.
  apply Z.eqb_neq. apply H. exact Hr.
Qed.

Lemma select_eq_existing tid t :
  (exists r, In r t /\ telegram_id r = tid) ->
  exists r rest, fst (select_eq tid t) = r :: rest.
Proof.
  intros [r [Hin Hid]].
  destruct (fst (select_eq tid t)) as [|r0 rest] eqn:E.
  - exfalso. apply (@filter_some _ (fun r => (telegram_id r =? tid)%Z) t r Hin).
    + apply Z.eqb_eq. exact Hid.
    + exact E.
  - exists r0, rest. reflexivity.
Qed.

Lemma updated_table_ids tid uname name nick now t :
  map telegram_id (updated_table tid uname name nick now t) = map telegram_id t.
Proof.
  unfold updated_table. rewrite map_map. apply map_ext_in.
  intros r _. destruct (Z.eqb_spec (telegram_id r) tid) as [E|E]; simpl; auto.
Qed.

Lemma updated_table_created tid uname name nick now t :
  map created_at (updated_table tid uname name nick now t) = map created_at t.
Proof.
  unfold updated_table. rewrite map_map. apply map_ext_in.
  intros r _. destruct (telegram_id r =? tid)%Z; reflexivity.
Qed.

Lemma rows_of_length_ids tid t t' :
  map telegram_id t' = map telegram_id t ->
  List.length (rows_of tid t') = List.length (rows_of tid t).
Proof.
  revert t'. induction t as [|r t IH]; intros [|r' t'] H; simpl in *;
    try discriminate; [reflexivity|].
  injection H as Hid Hrest. rewrite Hid.
  destruct (telegram_id r =? tid)%Z; simpl; rewrite (IH t' Hrest); reflexivity.
Qed.

(** Case analysis on the outcome of the next database round trips. *)
Ltac next_db_fault w :=
  let t := fresh "t" in
  let dbf := fresh "dbf" in
  destruct w as [t dbf ? ? ? ? ? ?];
  destruct dbf as [|[?|] [|[?|] ?]]; simpl in *.

Ltac run_store :=
  unfold DatabaseManager.save_user_nick, DatabaseManager.get_user_nick,
    DatabaseManager.get_stats, DatabaseManager.search_nick,
    try_except, bind, execute, datetime_now, logger, ret,
    set_users, set_db_faults, set_log, set_clock_reads in *;
  simpl in *.

(** ** save_user_nick *)

(** With the backend up, a save succeeds. *)
Lemma save_user_nick_succeeds w tid uname name nick :
  first_fault 2 (db_faults w) = None ->
  exists w', DatabaseManager.save_user_nick tid uname name nick w
             = (Returns true, w').
Proof.
  intros H. next_db_fault w; try discriminate; run_store;
    destruct (filter _ t); simpl; eexists; reflexivity.
Qed.

(** C1, as amended.  For an identity with no row, a save that returns
    [True] appends exactly one row to the table, the only row of that
    identity; its [updated_at] is the clock reading taken when the dict is
    built and its [created_at] is a second reading taken after that one, so
    the two fields agree exactly when the two readings do. *)
Theorem save_user_nick_new_identity_C1 w tid uname name nick w' :
  (forall r, In r (users w) -> telegram_id r <> tid) ->
  DatabaseManager.save_user_nick tid uname name nick w = (Returns true, w') ->
  let first_reading := clock w (clock_reads w) in
  let second_reading := clock w (S (clock_reads w)) in
  let row := mkUser tid uname name nick second_reading first_reading in
  users w' = users w ++ [row]
  /\ rows_of tid (users w') = [row]
  /\ updated_at row = first_reading
  /\ created_at row = second_reading
  /\ (created_at row = updated_at row <-> second_reading = first_reading).
Proof.
  intros Hnew Hrun first_reading second_reading row.
  assert (Hsel : filter (fun r => (telegram_id r =? tid)%Z) (users w) = [])
    by exact (@select_eq_new tid (users w) Hnew).
  assert (Htable : users w' = users w ++ [row]).
  { subst row first_reading second_reading.
    next_db_fault w; run_store; try rewrite Hsel in Hrun; simpl in Hrun;
      repeat match type of Hrun with
             | context [if is_Exception ?e then _ else _] =>
               destruct (is_Exception e)
             end;
      inversion Hrun; subst; reflexivity. }
  split; [exact Htable|].
  split.
  { rewrite Htable. unfold rows_of. rewrite filter_app.
    fold (rows_of tid (users w)). unfold rows_of. rewrite Hsel. simpl.
    rewrite Z.eqb_refl. reflexivity. }
  simpl. repeat split; auto.
Qed.

Lemma save_user_nick_new_identity_C1_witness :
  (forall r, In r (users ticking_world) -> telegram_id r <> 7%Z)
  /\ users (snd (DatabaseManager.save_user_nick 7 None (py "Alice") (py "Hero")
                   ticking_world))
     = [mkUser 7 None (py "Alice") (py "Hero") 1001 1000].
Proof.
  assert (Hnew : forall r, In r (users ticking_world) -> telegram_id r <> 7%Z)
    by (intros r []).
  split; [exact Hnew|].
  exact (proj1 (@save_user_nick_new_identity_C1 ticking_world 7 None
                  (py "Alice") (py "Hero") _ Hnew eq_refl)).
Defined.

(** C1, as stated, fails: on a clock that moves between two readings the
    row inserted for a new identity has [created_at] later than
    [updated_at]. *)
Lemma save_user_nick_created_after_updated_C1 :
  (forall r, In r (users ticking_world) -> telegram_id r <> 7%Z)
  /\ fst (DatabaseManager.save_user_nick 7 None (py "Alice") (py "Hero")
            ticking_world) = Returns true
  /\ exists row,
      users (snd (DatabaseManager.save_user_nick 7 None (py "Alice") (py "Hero")
                    ticking_world)) = [row]
      /\ created_at row = 1001%Z
      /\ updated_at row = 1000%Z
      /\ created_at row <> updated_at row.
Proof.
  split; [intros r []|].
  split; [reflexivity|].
  eexists. split; [reflexivity|].
  simpl. repeat split; discriminate.
Qed.

(** C6.  For an identity that has a row, a save that returns [True]
    rewrites [game_nick], [telegram_username], [telegram_name] and
    [updated_at] of its rows in place: the table keeps its length, its
    identities and every [created_at], the rows of other identities stay as
    they were, and the identity has as many rows as before. *)
Theorem save_user_nick_existing_identity_C6 w tid uname name nick w' :
  (exists r, In r (users w) /\ telegram_id r = tid) ->
  DatabaseManager.save_user_nick tid uname name nick w = (Returns true, w') ->
  let now := clock w (clock_reads w) in
  users w' = updated_table tid uname name nick now (users w)
  /\ (forall r', In r' (rows_of tid (users w')) ->
        game_nick r' = nick /\ telegram_username r' = uname
        /\ telegram_name r' = name /\ updated_at r' = now)
  /\ map created_at (users w') = map created_at (users w)
  /\ map telegram_id (users w') = map telegram_id (users w)
  /\ List.length (users w') = List.length (users w)
  /\ List.length (rows_of tid (users w')) = List.length (rows_of tid (users w))
  /\ (forall r, In r (users w) -> telegram_id r <> tid -> In r (users w')).
Proof.
  intros Hex Hrun now.
  destruct (select_eq_existing tid (users w) Hex) as [r0 [rest Hsel]].
  unfold select_eq in Hsel. simpl in Hsel.
  assert (Htable : users w' = updated_table tid uname name nick now (users w)).
  { subst now.
    next_db_fault w; run_store; try rewrite Hsel in Hrun; simpl in Hrun;
      repeat match type of Hrun with
             | context [if is_Exception ?e then _ else _] =>
               destruct (is_Exception e)
             end;
      inversion Hrun; subst; reflexivity. }
  split; [exact Htable|].
  split.
  { rewrite Htable. intros r' Hr'. unfold rows_of in Hr'.
    apply filter_In in Hr'. destruct Hr' as [Hin Hid].
    unfold updated_table in Hin. apply in_map_iff in Hin.
    destruct Hin as [r [Hr _]].
    destruct (Z.eqb_spec (telegram_id r) tid) as [E|E].
    - subst r'. simpl. auto.
    - subst r'. apply Z.eqb_eq in Hid. contradiction. }
  split; [rewrite Htable; apply updated_table_created|].
  assert (Hids : map telegram_id (users w') = map telegram_id (users w))
    by (rewrite Htable; apply updated_table_ids).
  split; [exact Hids|].
  split; [rewrite Htable; unfold updated_table; apply length_map|].
  split; [apply rows_of_length_ids; exact Hids|].
  intros r Hin Hne. rewrite Htable. unfold updated_table.
  apply in_map_iff. exists r. split; [|exact Hin].
  destruct (Z.eqb_spec (telegram_id r) tid); [contradiction|reflexivity].
Qed.

Lemma save_user_nick_existing_identity_C6_witness :
  (exists r, In r (users hero_world) /\ telegram_id r = 7%Z)
  /\ users (snd (DatabaseManager.save_user_nick 7 None (py "Al") (py "Zed")
                   hero_world))
     = [mkUser 7 None (py "Al") (py "Zed") 900 1000].
Proof.
  assert (Hex : exists r, In r (users hero_world) /\ telegram_id r = 7%Z).
  { eexists. split; [left; reflexivity|reflexivity]. }
  split; [exact Hex|].
  exact (proj1 (@save_user_nick_existing_identity_C6 hero_world 7 None
                  (py "Al") (py "Zed") _ Hex eq_refl)).
Defined.

(** ** The store swallows backend failures *)

Lemma first_fault_is_Exception n faults e :
  all_Exceptions faults -> first_fault n faults = Some e ->
  is_Exception e = true.
Proof.
  revert faults. induction n as [|n IH]; intros faults Hall Hf.
  - destruct faults; discriminate.
  - destruct faults as [|[e'|] rest]; simpl in Hf; try discriminate.
    + injection Hf as ->. exact (all_Exceptions_head _ _ Hall).
    + exact (IH rest (all_Exceptions_tail _ _ Hall) Hf).
Qed.

(** Uses what is known of the exceptions at hand to run the handlers. *)
Ltac run_handlers :=
  repeat match goal with
         | H : all_Exceptions (Some ?e :: _) |- _ =>
           pose proof (all_Exceptions_head _ _ H);
           apply all_Exceptions_tail in H
         | H : all_Exceptions (None :: _) |- _ =>
           apply all_Exceptions_tail in H
         | H : is_Exception ?e = true |- context [is_Exception ?e] =>
           rewrite H
         | H : Some _ = Some _ |- _ => injection H as ->
         end.

Section StoreFailures.

Variable ilike : str -> str -> bool.
Variable w : World.
Hypothesis backend_raises_Exceptions : all_Exceptions (db_faults w).

Lemma get_user_nick_returns tid :
  exists r w', DatabaseManager.get_user_nick tid w = (Returns r, w').
Proof.
  revert backend_raises_Exceptions.
  next_db_fault w; intros Hall; run_store; run_handlers;
    try destruct (filter _ t); simpl; do 2 eexists; reflexivity.
Qed.

Lemma save_user_nick_returns tid uname name nick :
  exists r w',
    DatabaseManager.save_user_nick tid uname name nick w = (Returns r, w').
Proof.
  revert backend_raises_Exceptions.
  next_db_fault w; intros Hall; run_store; run_handlers;
    try destruct (filter _ t); simpl; run_handlers;
    do 2 eexists; reflexivity.
Qed.

Lemma get_stats_returns :
  exists r w', DatabaseManager.get_stats w = (Returns r, w').
Proof.
  revert backend_raises_Exceptions.
  next_db_fault w; intros Hall; run_store; run_handlers;
    do 2 eexists; reflexivity.
Qed.

Lemma search_nick_returns search_text :
  exists r w',
    DatabaseManager.search_nick ilike search_text w = (Returns r, w').
Proof.
  revert backend_raises_Exceptions.
  next_db_fault w; intros Hall; run_store; run_handlers;
    do 2 eexists; reflexivity.
Qed.

Lemma get_user_nick_on_failure e tid :
  first_fault 1 (db_faults w) = Some e ->
  exists w',
    DatabaseManager.get_user_nick tid w = (Returns None, w')
    /\ log w' = log w ++ [(ERROR, get_nick_failed e)]
    /\ users w' = users w.
Proof.
  intros Hf.
  pose proof (first_fault_is_Exception _ _ _ backend_raises_Exceptions Hf) as He.
  clear backend_raises_Exceptions.
  next_db_fault w; try discriminate; run_store; run_handlers;
    eexists; repeat split; reflexivity.
Qed.

Lemma save_user_nick_on_failure e tid uname name nick :
  first_fault 2 (db_faults w) = Some e ->
  exists w',
    DatabaseManager.save_user_nick tid uname name nick w = (Returns false, w')
    /\ log w' = log w ++ [(ERROR, save_nick_failed e)]
    /\ users w' = users w.
Proof.
  intros Hf.
  pose proof (first_fault_is_Exception _ _ _ backend_raises_Exceptions Hf) as He.
  clear backend_raises_Exceptions.
  next_db_fault w; try discriminate; run_store; run_handlers;
    try destruct (filter _ t); simpl; run_handlers;
    eexists; repeat split; reflexivity.
Qed.

Lemma get_stats_on_failure e :
  first_fault 2 (db_faults w) = Some e ->
  exists w',
    DatabaseManager.get_stats w = (Returns (DatabaseManager.mkStats 0 []), w')
    /\ log w' = log w ++ [(ERROR, stats_failed e)]
    /\ users w' = users w.
Proof.
  intros Hf.
  pose proof (first_fault_is_Exception _ _ _ backend_raises_Exceptions Hf) as He.
  clear backend_raises_Exceptions.
  next_db_fault w; try discriminate; run_store; run_handlers;
    eexists; repeat split; reflexivity.
Qed.

Lemma search_nick_on_failure e search_text :
  first_fault 1 (db_faults w) = Some e ->
  exists w',
    DatabaseManager.search_nick ilike search_text w = (Returns [], w')
    /\ log w' = log w ++ [(ERROR, search_failed e)]
    /\ users w' = users w.
Proof.
  intros Hf.
  pose proof (first_fault_is_Exception _ _ _ backend_raises_Exceptions Hf) as He.
  clear backend_raises_Exceptions.
  next_db_fault w; try discriminate; run_store; run_handlers;
    eexists; repeat split; reflexivity.
Qed.

End StoreFailures.

(** C5.  When whatever the backend raises is an [Exception], the four
    store operations return to their caller and never raise; and when a
    round trip of the operation raises [e], [get_user_nick] returns
    [None], [save_user_nick] returns [False], [get_stats] returns total 0
    with no recent rows and [search_nick] returns the empty list, each
    after exactly one ERROR record for [e] was logged, the table being
    left as it was. *)
Theorem store_never_raises_C5 (ilike : str -> str -> bool) (w : World) :
  all_Exceptions (db_faults w) ->
  (forall tid,
      (exists r w', DatabaseManager.get_user_nick tid w = (Returns r, w'))
      /\ forall e, first_fault 1 (db_faults w) = Some e ->
           exists w',
             DatabaseManager.get_user_nick tid w = (Returns None, w')
             /\ log w' = log w ++ [(ERROR, get_nick_failed e)]
             /\ users w' = users w)
  /\ (forall tid uname name nick,
      (exists r w',
          DatabaseManager.save_user_nick tid uname name nick w = (Returns r, w'))
      /\ forall e, first_fault 2 (db_faults w) = Some e ->
           exists w',
             DatabaseManager.save_user_nick tid uname name nick w
             = (Returns false, w')
             /\ log w' = log w ++ [(ERROR, save_nick_failed e)]
             /\ users w' = users w)
  /\ ((exists r w', DatabaseManager.get_stats w = (Returns r, w'))
      /\ forall e, first_fault 2 (db_faults w) = Some e ->
           exists w',
             DatabaseManager.get_stats w
             = (Returns (DatabaseManager.mkStats 0 []), w')
             /\ log w' = log w ++ [(ERROR, stats_failed e)]
             /\ users w' = users w)
  /\ (forall search_text,
      (exists r w',
          DatabaseManager.search_nick ilike search_text w = (Returns r, w'))
      /\ forall e, first_fault 1 (db_faults w) = Some e ->
           exists w',
             DatabaseManager.search_nick ilike search_text w = (Returns [], w')
             /\ log w' = log w ++ [(ERROR, search_failed e)]
             /\ users w' = users w).
Proof.
  intros Hall. repeat split.
  - apply get_user_nick_returns; assumption.
  - intros e. apply get_user_nick_on_failure; assumption.
  - apply save_user_nick_returns; assumption.
  - intros e. apply save_user_nick_on_failure; assumption.
  - apply get_stats_returns; assumption.
  - intros e. apply get_stats_on_failure; assumption.
  - apply search_nick_returns; assumption.
  - intros e. apply search_nick_on_failure; assumption.
Qed.

Lemma store_never_raises_C5_witness :
  all_Exceptions (db_faults (backend_down hero_world))
  /\ fst (DatabaseManager.get_user_nick 7 (backend_down hero_world))
     = Returns None
  /\ fst (DatabaseManager.save_user_nick 7 None (py "Al") (py "Zed")
            (backend_down hero_world)) = Returns false.
Proof.
  assert (Hall : all_Exceptions (db_faults (backend_down hero_world))).
  { repeat constructor. }
  split; [exact Hall|].
  pose proof (@store_never_raises_C5 (fun _ _ => true) (backend_down hero_world)
                Hall) as [Hget [Hsave _]].
  destruct (proj2 (Hget 7%Z) APIError eq_refl) as [w1 [H1 _]].
  destruct (proj2 (Hsave 7%Z None (py "Al") (py "Zed")) APIError eq_refl)
    as [w2 [H2 _]].
  split.
  - rewrite H1. reflexivity.
  - rewrite H2. reflexivity.
Defined.

(** ** /nick: validation *)

(** In a private chat a reply without a target quotes nothing; in every
    other chat it quotes the message it answers. *)
Lemma reply_target_private update :
  chat_type (chat (message update)) = private ->
  reply_target update None = None.
Proof. intros H. unfold reply_target. rewrite H. reflexivity. Qed.

Lemma reply_target_elsewhere update :
  chat_type (chat (message update)) <> private ->
  reply_target update None = Some (message_id (message update)).
Proof.
  intros H. unfold reply_target.
  destruct (chat_type (chat (message update))); [contradiction| | |];
    reflexivity.
Qed.

Lemma reply_and_return update body pm reply_to w :
  let w' := snd ((reply_text update body pm reply_to ;; ret tt) w) in
  calls w' = calls w
             ++ [SendMessage (chat_id (chat (message update))) body pm
                             (reply_target update reply_to)]
  /\ store_untouched w w'.
Proof.
  destruct w as [t dbf awf clk n mid cs lg].
  unfold reply_text, send_message, await_call, fresh_message, bind, ret,
    store_untouched.
  destruct awf as [|[e|] awf]; simpl; repeat split; reflexivity.
Qed.

Lemma contains_In c s : contains c s = true <-> In c s.
Proof.
  unfold contains. rewrite existsb_exists. split.
  - intros [x [Hin Heq]]. apply N.eqb_eq in Heq. subst. exact Hin.
  - intros Hin. exists c. split; [exact Hin|apply N.eqb_refl].
Qed.

Lemma first_forbidden_complete chars s c :
  In c chars -> In c s -> exists c', first_forbidden chars s = Some c'.
Proof.
  induction chars as [|d chars IH]; intros Hc Hs; [destruct Hc|].
  simpl. destruct (contains d s) eqn:E; [eexists; reflexivity|].
  destruct Hc as [->|Hc].
  - apply contains_In in Hs. congruence.
  - exact (IH Hc Hs).
Qed.

(** The loop returns the first character, in the order of the list, that
    occurs in the nickname. *)
Lemma first_forbidden_first chars s c :
  first_forbidden chars s = Some c ->
  exists before after,
    chars = before ++ c :: after
    /\ In c s
    /\ forall d, In d before -> ~ In d s.
Proof.
  induction chars as [|d chars IH]; intros H; [discriminate|].
  simpl in H. destruct (contains d s) eqn:E.
  - injection H as ->. exists [], chars. repeat split.
    + apply contains_In. exact E.
    + intros d [].
  - destruct (IH H) as [before [after [Hsplit [Hin Hnot]]]].
    exists (d :: before), after. repeat split.
    + simpl. rewrite Hsplit. reflexivity.
    + exact Hin.
    + intros d' [<-|Hd'].
      * intros Hs. apply contains_In in Hs. congruence.
      * exact (Hnot d' Hd').
Qed.

Lemma too_short_not_forbidden c : Texts.too_short <> Texts.forbidden c.
Proof. intros H. vm_compute in H. discriminate. Qed.

Lemma too_long_not_forbidden c : Texts.too_long <> Texts.forbidden c.
Proof. intros H. vm_compute in H. discriminate. Qed.

Lemma forbidden_names_its_char c d :
  Texts.forbidden c = Texts.forbidden d -> c = d.
Proof.
  unfold Texts.forbidden. intros H. apply app_inv_head in H.
  injection H as ->. reflexivity.
Qed.

(** A candidate that holds a forbidden character comes from arguments. *)
Lemma forbidden_needs_args args :
  (exists c, In c forbidden_chars /\ In c (candidate args)) -> args <> [].
Proof. intros [c [_ Hin]] ->. exact Hin. Qed.

(** What [/nick] does with each kind of candidate. *)
Lemma nick_command_too_short update args w :
  args <> [] -> len (candidate args) < 2 ->
  let w' := snd (nick_command update args w) in
  replied_only update Texts.too_short w w' /\ store_untouched w w'.
Proof.
  intros Hargs Hlen. destruct args as [|a args]; [contradiction|].
  unfold nick_command. fold (candidate (a :: args)).
  destruct (Nat.ltb_spec (len (candidate (a :: args))) 2); [|lia].
  apply reply_and_return.
Qed.

Lemma nick_command_too_long update args w :
  args <> [] -> 32 < len (candidate args) ->
  let w' := snd (nick_command update args w) in
  replied_only update Texts.too_long w w' /\ store_untouched w w'.
Proof.
  intros Hargs Hlen. destruct args as [|a args]; [contradiction|].
  unfold nick_command. fold (candidate (a :: args)).
  destruct (Nat.ltb_spec (len (candidate (a :: args))) 2); [lia|].
  destruct (Nat.ltb_spec 32 (len (candidate (a :: args)))); [|lia].
  apply reply_and_return.
Qed.

Lemma nick_command_forbidden update args w c :
  args <> [] -> 2 <= len (candidate args) <= 32 ->
  first_forbidden forbidden_chars (candidate args) = Some c ->
  let w' := snd (nick_command update args w) in
  replied_only update (Texts.forbidden c) w w' /\ store_untouched w w'.
Proof.
  intros Hargs Hlen Hc. destruct args as [|a args]; [contradiction|].
  unfold nick_command. fold (candidate (a :: args)).
  destruct (Nat.ltb_spec (len (candidate (a :: args))) 2); [lia|].
  destruct (Nat.ltb_spec 32 (len (candidate (a :: args)))); [lia|].
  rewrite Hc. apply reply_and_return.
Qed.

(** C4.  When [/nick] is given arguments and the candidate nickname is
    shorter than 2, longer than 32 or holds a forbidden character, the
    handler awaits one reply and nothing else, and leaves the store alone
    (no round trip, hence no [save_user_nick]): the reply is the too-short
    text below 2, the too-long text above 32 and, for a length in range,
    the text that names a forbidden character occurring in the
    candidate, the fixed sentence followed by that character.  The reply
    is sent as [reply_text] sends it: outside a private chat it quotes
    the command message. *)
Theorem nick_command_rejects_invalid_C4 update args w :
  args <> [] ->
  let game_nick := candidate args in
  let w' := snd (nick_command update args w) in
  (len game_nick < 2 \/ 32 < len game_nick
   \/ exists c, In c forbidden_chars /\ In c game_nick) ->
  store_untouched w w'
  /\ (len game_nick < 2 -> replied_only update Texts.too_short w w')
  /\ (32 < len game_nick -> replied_only update Texts.too_long w w')
  /\ (2 <= len game_nick <= 32 ->
      exists c, In c forbidden_chars /\ In c game_nick
                /\ replied_only update (Texts.forbidden c) w w'
                /\ Texts.forbidden c
                   = py "❌ Ник содержит запрещенный символ: " ++ [c]).
Proof.
  intros Hargs game_nick w' Hbad.
  assert (Hforb : 2 <= len game_nick <= 32 ->
                  exists c, first_forbidden forbidden_chars game_nick = Some c).
  { intros Hlen. destruct Hbad as [H|[H|[c [Hc Hin]]]]; try lia.
    exact (first_forbidden_complete _ _ _ Hc Hin). }
  split.
  - destruct (Nat.lt_ge_cases (len game_nick) 2) as [Hs|Hs].
    { exact (proj2 (nick_command_too_short update args w Hargs Hs)). }
    destruct (Nat.lt_ge_cases 32 (len game_nick)) as [Hl|Hl].
    { exact (proj2 (nick_command_too_long update args w Hargs Hl)). }
    destruct (Hforb (conj Hs Hl)) as [c Hc].
    exact (proj2 (nick_command_forbidden update args w c Hargs (conj Hs Hl) Hc)).
  - split; [|split].
    + intros Hs. exact (proj1 (nick_command_too_short update args w Hargs Hs)).
    + intros Hl. exact (proj1 (nick_command_too_long update args w Hargs Hl)).
    + intros Hlen. destruct (Hforb Hlen) as [c Hc].
      destruct (first_forbidden_first _ _ _ Hc)
        as [before [after [Hsplit [Hin _]]]].
      exists c. split; [|split].
      * rewrite Hsplit. apply in_or_app. right. left. reflexivity.
      * exact Hin.
      * split; [|reflexivity].
        exact (proj1 (nick_command_forbidden update args w c Hargs Hlen Hc)).
Qed.

Lemma nick_command_rejects_invalid_C4_witness :
  [py "a"] <> []
  /\ len (candidate [py "a"]) < 2
  /\ calls (snd (nick_command (alice_says "/nick a") [py "a"] ticking_world))
     = [SendMessage (-100) Texts.too_short None (Some 42%Z)].
Proof.
  assert (Hargs : [py "a"] <> []) by discriminate.
  assert (Hlen : len (candidate [py "a"]) < 2) by (vm_compute; lia).
  split; [exact Hargs|]. split; [exact Hlen|].
  exact (proj1 (proj2 (nick_command_rejects_invalid_C4 (alice_says "/nick a")
                         [py "a"] ticking_world Hargs (or_introl Hlen))) Hlen).
Defined.

(** C9.  The length checks come first: when the candidate nickname of
    [/nick] is shorter than 2 or longer than 32 and also holds a forbidden
    character, the one reply is the too-short or the too-long text, which
    is not the forbidden-character text of any character, and the store is
    left alone. *)
Theorem nick_command_length_checked_first_C9 update args w :
  let game_nick := candidate args in
  let w' := snd (nick_command update args w) in
  (len game_nick < 2 \/ 32 < len game_nick) ->
  (exists c, In c forbidden_chars /\ In c game_nick) ->
  exists body,
    replied_only update body w w'
    /\ (len game_nick < 2 -> body = Texts.too_short)
    /\ (32 < len game_nick -> body = Texts.too_long)
    /\ (forall c, body <> Texts.forbidden c)
    /\ store_untouched w w'.
Proof.
  intros game_nick w' Hlen Hforbidden.
  assert (Hargs : args <> []) by exact (forbidden_needs_args args Hforbidden).
  destruct Hlen as [Hs|Hl].
  - exists Texts.too_short.
    destruct (nick_command_too_short update args w Hargs Hs) as [Hr Hu].
    split; [exact Hr|]. split; [reflexivity|].
    split; [intros Hl; unfold game_nick in *; lia|].
    split; [exact too_short_not_forbidden|exact Hu].
  - exists Texts.too_long.
    destruct (nick_command_too_long update args w Hargs Hl) as [Hr Hu].
    split; [exact Hr|].
    split; [intros Hs; unfold game_nick in *; lia|].
    split; [reflexivity|].
    split; [exact too_long_not_forbidden|exact Hu].
Qed.

Lemma nick_command_length_checked_first_C9_witness :
  len (candidate [py "<"]) < 2
  /\ In 60%N (candidate [py "<"])
  /\ calls (snd (nick_command (alice_says "/nick <") [py "<"] ticking_world))
     = [SendMessage (-100) Texts.too_short None (Some 42%Z)].
Proof.
  assert (Hlen : len (candidate [py "<"]) < 2) by (vm_compute; lia).
  assert (Hin : In 60%N (candidate [py "<"])) by (left; reflexivity).
  split; [exact Hlen|]. split; [exact Hin|].
  destruct (nick_command_length_checked_first_C9 (alice_says "/nick <")
              [py "<"] ticking_world (or_introl Hlen)
              (ex_intro _ 60%N (conj (or_introl eq_refl) Hin)))
    as [body [Hr [Hshort _]]].
  rewrite (Hshort Hlen) in Hr. exact Hr.
Defined.

(** C10.  When the candidate nickname of [/nick] passes the length checks
    and holds more than one forbidden character, the reply names the one
    that comes first in the check order of [forbidden_chars]: every
    character before it in that order is absent from the candidate,
    wherever the characters stand in the candidate itself.  The reply is
    the fixed sentence followed by that character and by nothing else, so
    the character is its last one and no other character has the same
    reply. *)
Theorem nick_command_names_first_in_check_order_C10 update args w :
  let game_nick := candidate args in
  let w' := snd (nick_command update args w) in
  2 <= len game_nick <= 32 ->
  (exists c d, c <> d /\ In c forbidden_chars /\ In d forbidden_chars
               /\ In c game_nick /\ In d game_nick) ->
  exists before named after,
    forbidden_chars = before ++ named :: after
    /\ In named game_nick
    /\ (forall earlier, In earlier before -> ~ In earlier game_nick)
    /\ replied_only update (Texts.forbidden named) w w'
    /\ Texts.forbidden named
       = py "❌ Ник содержит запрещенный символ: " ++ [named]
    /\ last (Texts.forbidden named) 0%N = named
    /\ (forall other, Texts.forbidden other = Texts.forbidden named ->
                      other = named)
    /\ store_untouched w w'.
Proof.
  intros game_nick w' Hlen [c [d [_ [Hc [_ [Hin _]]]]]].
  assert (Hargs : args <> [])
    by exact (forbidden_needs_args args (ex_intro _ c (conj Hc Hin))).
  destruct (first_forbidden_complete _ _ _ Hc Hin) as [named Hnamed].
  destruct (first_forbidden_first _ _ _ Hnamed)
    as [before [after [Hsplit [Hnin Hnot]]]].
  exists before, named, after.
  destruct (nick_command_forbidden update args w named Hargs Hlen Hnamed)
    as [Hr Hu].
  split; [exact Hsplit|]. split; [exact Hnin|]. split; [exact Hnot|].
  split; [exact Hr|]. split; [reflexivity|].
  split; [unfold Texts.forbidden; apply last_last|].
  split; [intros other; apply forbidden_names_its_char|exact Hu].
Qed.

Lemma nick_command_names_first_in_check_order_C10_witness :
  2 <= len (candidate [py "a>b<"]) <= 32
  /\ earliest_in_nick (candidate [py "a>b<"]) = Some 62%N
  /\ calls (snd (nick_command (alice_says "/nick a>b<") [py "a>b<"]
                   ticking_world))
     = [SendMessage (-100) (py "❌ Ник содержит запрещенный символ: <") None
                    (Some 42%Z)].
Proof.
  assert (Hlen : 2 <= len (candidate [py "a>b<"]) <= 32) by (vm_compute; lia).
  split; [exact Hlen|]. split; [reflexivity|].
  destruct (nick_command_names_first_in_check_order_C10
              (alice_says "/nick a>b<") [py "a>b<"] ticking_world Hlen)
    as [before [named [after [Hsplit [Hin [Hnot [Hr _]]]]]]].
  { exists 60%N, 62%N. vm_compute. intuition discriminate. }
  assert (Hnamed : named = 60%N).
  { destruct before as [|b before].
    - injection Hsplit as <- _. reflexivity.
    - injection Hsplit as <- _. exfalso. apply (Hnot 60%N).
      + left. reflexivity.
      + vm_compute. auto. }
  rewrite Hnamed in Hr. exact Hr.
Defined.

(** ** The group relay *)

Lemma get_user_nick_found w tid nick :
  first_fault 1 (db_faults w) = None ->
  has_nick w tid nick ->
  DatabaseManager.get_user_nick tid w
  = (Returns (Some nick), set_db_faults (tl (db_faults w)) w).
Proof.
  intros Hf [r [rest [Hrows <-]]]. unfold rows_of in Hrows.
  next_db_fault w; try discriminate; run_store; rewrite Hrows; reflexivity.
Qed.

Lemma get_user_nick_absent w tid :
  all_Exceptions (db_faults w) ->
  rows_of tid (users w) = [] ->
  exists w1,
    DatabaseManager.get_user_nick tid w = (Returns None, w1)
    /\ calls w1 = calls w /\ await_faults w1 = await_faults w
    /\ next_message_id w1 = next_message_id w /\ users w1 = users w.
Proof.
  intros Hall Hrows. unfold rows_of in Hrows.
  next_db_fault w; run_store; run_handlers; try rewrite Hrows;
    eexists; repeat split; reflexivity.
Qed.

(** The head of the handler, up to the lookup of the nickname. *)
Lemma handle_group_message_lookup update body w :
  in_group update -> non_command_text update body ->
  handle_group_message update w
  = bind (DatabaseManager.get_user_nick (user_id (effective_user update)))
         (fun game_nick =>
            match game_nick with
            | Some ((_ :: _) as nick) =>
              sent_message <- send_message (chat_id (effective_chat update))
                                (Texts.relayed nick body) (Some Markdown) None ;;
              try_except
                (delete (message update))
                (fun e =>
                   logger WARNING (delete_failed (message_id (message update)) e) ;;
                   try_except_all (delete_sent sent_message) (ret tt))
            | _ =>
              try_except
                (reminder <- reply_text update
                               (Texts.reminder (first_name (effective_user update)))
                               (Some Markdown)
                               (Some (message_id (message update))) ;;
                 sleep 15 ;;
                 delete_sent reminder)
                (fun e => logger ERROR (reminder_failed e))
            end) w.
Proof.
  intros Hgroup [Htext Hcmd]. unfold handle_group_message.
  rewrite Htext, Hcmd.
  destruct Hgroup as [-> | ->]; reflexivity.
Qed.

Ltac run_bot :=
  unfold send_message, reply_text, delete, delete_sent, sleep, await_call,
    fresh_message, try_except, try_except_all, bind, logger, ret,
    effective_chat in *;
  simpl in *.

Lemma bind_returns {A B} (m : M A) (k : A -> M B) w a w1 :
  m w = (Returns a, w1) -> bind m k w = k a w1.
Proof. intros H. unfold bind. rewrite H. reflexivity. Qed.

(** C2, as amended.  For a non-command text message in a group from a
    sender whose lookup gives a non-empty nickname, the handler posts one
    message to the same chat, in Markdown, whose text is two asterisks,
    the game-pad sign, a space, the nickname, a colon, two asterisks, a
    space and the original text; whatever else it awaits is a deletion,
    and when the post goes through the first of them is the deletion of
    the original message. *)
Theorem relay_posts_marked_up_text_C2 update body nick w :
  in_group update -> non_command_text update body ->
  first_fault 1 (db_faults w) = None ->
  has_nick w (user_id (effective_user update)) nick -> nick <> [] ->
  let w' := snd (handle_group_message update w) in
  Texts.relayed nick body
  = [42; 42; 127918; 32]%N ++ nick ++ [58; 42; 42; 32]%N ++ body
  /\ exists rest,
      calls w' = calls w ++ relay_post update nick body :: rest
      /\ (forall c, In c rest -> is_delete c)
      /\ (first_fault 1 (await_faults w) = None ->
          exists rest', rest = delete_original update :: rest').
Proof.
  intros Hgroup Htext Hdb Hnick Hne w'. split; [reflexivity|].
  subst w'. rewrite (handle_group_message_lookup update body w Hgroup Htext).
  rewrite (bind_returns _ _ _ _ _ (get_user_nick_found w _ nick Hdb Hnick)).
  destruct nick as [|c nick]; [contradiction|].
  unfold relay_post, delete_original, is_delete.
  destruct w as [t dbf awf clk n mid cs lg].
  destruct awf as [|[e1|] [|[e2|] [|[e3|] awf]]]; run_bot;
    repeat match goal with
           | |- context [if is_Exception ?e then _ else _] =>
             destruct (is_Exception e); simpl
           end;
    repeat rewrite <- app_assoc; simpl;
    eexists; (split; [reflexivity|]);
    (split; [intros c' Hc'; simpl in Hc'; intuition (subst; eauto)|]);
    intros Hok; try discriminate; eexists; reflexivity.
Qed.

Lemma relay_posts_marked_up_text_C2_witness :
  in_group (alice_says "t")
  /\ non_command_text (alice_says "t") (py "t")
  /\ has_nick hero_world 7 (py "Hero")
  /\ exists rest,
      calls (snd (handle_group_message (alice_says "t") hero_world))
      = SendMessage (-100) (py "**🎮 Hero:** t") (Some Markdown) None :: rest.
Proof.
  assert (Hgroup : in_group (alice_says "t")) by (left; reflexivity).
  assert (Htext : non_command_text (alice_says "t") (py "t"))
    by (split; reflexivity).
  assert (Hnick : has_nick hero_world 7 (py "Hero"))
    by (do 2 eexists; split; reflexivity).
  split; [exact Hgroup|]. split; [exact Htext|]. split; [exact Hnick|].
  destruct (proj2 (relay_posts_marked_up_text_C2 (alice_says "t") (py "t")
                     (py "Hero") hero_world Hgroup Htext eq_refl Hnick
                     ltac:(discriminate)))
    as [rest [Hcalls _]].
  exists rest. exact Hcalls.
Defined.

(** C2, as stated, fails: for the nickname Hero and the text t the
    message posted is not the nickname, a colon, a space and the text. *)
Lemma relay_text_is_not_plain_C2 :
  in_group (alice_says "t")
  /\ non_command_text (alice_says "t") (py "t")
  /\ fst (DatabaseManager.get_user_nick 7 hero_world) = Returns (Some (py "Hero"))
  /\ calls (snd (handle_group_message (alice_says "t") hero_world))
     = [SendMessage (-100) (py "**🎮 Hero:** t") (Some Markdown) None;
        DeleteMessage (-100) 42]
  /\ py "**🎮 Hero:** t" <> py "Hero: t".
Proof.
  split; [left; reflexivity|].
  split; [split; reflexivity|].
  split; [reflexivity|].
  split; [reflexivity|].
  vm_compute. discriminate.
Qed.

(** C7.  When the relay message was posted and the deletion of the
    original message then fails with an exception [e], the handler logs
    one WARNING for it, awaits exactly one more call, the deletion of the
    message it has just posted, and returns normally whatever that last
    call does: its outcome is the head of [after], which is arbitrary. *)
Theorem relay_deletes_its_post_C7 update body nick w e after :
  in_group update -> non_command_text update body ->
  first_fault 1 (db_faults w) = None ->
  has_nick w (user_id (effective_user update)) nick -> nick <> [] ->
  await_faults w = None :: Some e :: after ->
  is_Exception e = true ->
  let run := handle_group_message update w in
  fst run = Returns tt
  /\ calls (snd run)
     = calls w ++ [relay_post update nick body;
                   delete_original update;
                   DeleteMessage (chat_id (chat (message update)))
                                 (next_message_id w)]
  /\ log (snd run)
     = log w ++ [(WARNING, delete_failed (message_id (message update)) e)]
  /\ await_faults (snd run) = tl after
  /\ users (snd run) = users w.
Proof.
  intros Hgroup Htext Hdb Hnick Hne Hawait He run. subst run.
  rewrite (handle_group_message_lookup update body w Hgroup Htext).
  rewrite (bind_returns _ _ _ _ _ (get_user_nick_found w _ nick Hdb Hnick)).
  destruct nick as [|c nick]; [contradiction|].
  unfold relay_post, delete_original.
  destruct w as [t dbf awf clk n mid cs lg]. simpl in Hawait. subst awf.
  destruct after as [|[e2|] after]; run_bot; rewrite He; simpl;
    repeat rewrite <- app_assoc; simpl; repeat split; reflexivity.
Qed.

Lemma relay_deletes_its_post_C7_witness :
  in_group (alice_says "t")
  /\ has_nick (no_delete_rights hero_world) 7 (py "Hero")
  /\ fst (handle_group_message (alice_says "t") (no_delete_rights hero_world))
     = Returns tt
  /\ calls (snd (handle_group_message (alice_says "t")
                   (no_delete_rights hero_world)))
     = [SendMessage (-100) (py "**🎮 Hero:** t") (Some Markdown) None;
        DeleteMessage (-100) 42;
        DeleteMessage (-100) 500].
Proof.
  assert (Hgroup : in_group (alice_says "t")) by (left; reflexivity).
  assert (Htext : non_command_text (alice_says "t") (py "t"))
    by (split; reflexivity).
  assert (Hnick : has_nick (no_delete_rights hero_world) 7 (py "Hero"))
    by (do 2 eexists; split; reflexivity).
  split; [exact Hgroup|]. split; [exact Hnick|].
  destruct (relay_deletes_its_post_C7 (alice_says "t") (py "t") (py "Hero")
              (no_delete_rights hero_world) TelegramError [Some TelegramError]
              Hgroup Htext eq_refl Hnick ltac:(discriminate) eq_refl eq_refl)
    as [Hret [Hcalls _]].
  split; [exact Hret|exact Hcalls].
Defined.

(** C8.  For a non-command text message in a group from a sender with no
    row, when whatever the backend and the platform raise is an
    [Exception], the handler returns normally; what it awaits is an
    initial part of the reminder flow and never a relay post; with no
    failure it awaits the whole flow, the reminder threaded to the
    original message, then the 15 second pause, then the deletion of the
    reminder, and logs nothing; when a call of the flow raises [e] the
    flow stops there and one ERROR record for [e] is logged. *)
Theorem reminder_flow_C8 update body w :
  in_group update -> non_command_text update body ->
  rows_of (user_id (effective_user update)) (users w) = [] ->
  all_Exceptions (db_faults w) -> all_Exceptions (await_faults w) ->
  let run := handle_group_message update w in
  let looked_up :=
    snd (DatabaseManager.get_user_nick (user_id (effective_user update)) w) in
  fst run = Returns tt
  /\ (exists k, 1 <= k <= 3
                /\ calls (snd run) = calls w ++ firstn k (reminder_calls update w))
  /\ (forall nick, ~ In (relay_post update nick body) (reminder_calls update w))
  /\ (first_fault 3 (await_faults w) = None ->
      calls (snd run) = calls w ++ reminder_calls update w
      /\ log (snd run) = log looked_up)
  /\ (forall e, first_fault 3 (await_faults w) = Some e ->
      log (snd run) = log looked_up ++ [(ERROR, reminder_failed e)])
  /\ users (snd run) = users w.
Proof.
  intros Hgroup Htext Hrows Hdb Hawait run looked_up.
  destruct (get_user_nick_absent w _ Hdb Hrows)
    as [w1 [Hlookup [Hcalls [Hfaults [Hmid Husers]]]]].
  subst run looked_up.
  rewrite (handle_group_message_lookup update body w Hgroup Htext).
  rewrite (bind_returns _ _ _ _ _ Hlookup), Hlookup.
  rewrite <- Hcalls, <- Hfaults, <- Husers in *.
  unfold reminder_calls, relay_post. rewrite <- Hmid.
  clear Hlookup Hcalls Hfaults Hmid Husers Hdb Hrows.
  destruct w1 as [t dbf awf clk n mid cs lg]. simpl in Hawait.
  destruct awf as [|[e1|] [|[e2|] [|[e3|] awf]]]; run_bot; run_handlers;
    simpl; repeat rewrite <- app_assoc; simpl;
    (split; [reflexivity|]);
    (split; [first [ exists 3; split; [lia|reflexivity]
                   | exists 2; split; [lia|reflexivity]
                   | exists 1; split; [lia|reflexivity] ]|]);
    (split; [intros nick' Hin; simpl in Hin; intuition discriminate|]);
    (split; [intros Hok; try discriminate; split; reflexivity|]);
    (split; [intros e' He'; try discriminate; run_handlers; reflexivity
            |reflexivity]).
Qed.

Lemma reminder_flow_C8_witness :
  in_group (alice_says "hi")
  /\ rows_of 7 (users ticking_world) = []
  /\ fst (handle_group_message (alice_says "hi") ticking_world) = Returns tt
  /\ calls (snd (handle_group_message (alice_says "hi") ticking_world))
     = [SendMessage (-100) (Texts.reminder (py "Alice")) (Some Markdown)
                    (Some 42%Z);
        Sleep 15;
        DeleteMessage (-100) 500].
Proof.
  assert (Hgroup : in_group (alice_says "hi")) by (left; reflexivity).
  assert (Htext : non_command_text (alice_says "hi") (py "hi"))
    by (split; reflexivity).
  split; [exact Hgroup|]. split; [reflexivity|].
  destruct (reminder_flow_C8 (alice_says "hi") (py "hi") ticking_world
              Hgroup Htext eq_refl ltac:(constructor) ltac:(constructor))
    as [Hret [_ [_ [Hall _]]]].
  split; [exact Hret|exact (proj1 (Hall eq_refl))].
Defined.

(** ** /find *)

(** The search never gives more than 10 rows. *)
Lemma search_nick_at_most_10 ilike search_text w rows w' :
  DatabaseManager.search_nick ilike search_text w = (Returns rows, w') ->
  List.length rows <= 10.
Proof.
  intros Hrun.
  assert (Hcap : forall t,
             List.length (fst (DatabaseManager.select_ilike ilike search_text 10 t))
             <= 10).
  { intros t. unfold DatabaseManager.select_ilike. cbn [fst].
    rewrite length_map. apply firstn_le_length. }
  next_db_fault w; run_store;
    repeat match type of Hrun with
           | context [if is_Exception ?e then _ else _] =>
             destruct (is_Exception e)
           end;
    inversion Hrun; subst; simpl; try lia;
    match goal with
    | |- context [filter ?p ?l] =>
      exact (Hcap l)
    end.
Qed.

(** With at most 10 rows the reply of [/find] lists them all and says
    nothing of omitted results. *)
Lemma find_response_at_most_10 search_text row rows :
  List.length (row :: rows) <= 10 ->
  find_response search_text (row :: rows)
  = Texts.found_header search_text ++ found_lines (row :: rows).
Proof.
  intros Hlen. unfold find_response, found_lines.
  rewrite firstn_all2 by exact Hlen.
  destruct (Nat.ltb_spec 10 (List.length (row :: rows))); [lia|].
  rewrite app_nil_r. reflexivity.
Qed.

(** C3 at the failing input.  Eleven rows match the search for pro; the
    search gives back ten of them, and the reply of [/find] is the header
    and those ten numbered lines, without the line that would state that
    one result was omitted. *)
Theorem find_command_never_states_omitted_C3 :
  let search_text := py "pro" in
  let matched := filter (DatabaseManager.matches ascii_ilike search_text)
                        (users crowded_world) in
  let run := find_command ascii_ilike (alice_says "/find pro") [search_text]
                          crowded_world in
  List.length matched = 11
  /\ exists shown,
      fst (DatabaseManager.search_nick ascii_ilike search_text crowded_world)
      = Returns shown
      /\ List.length shown = 10
      /\ calls (snd run)
         = [SendMessage (-100)
                        (Texts.found_header search_text ++ found_lines shown)
                        (Some Markdown) (Some 42%Z)]
      /\ Texts.found_header search_text ++ found_lines shown
         <> Texts.found_header search_text ++ found_lines shown
            ++ Texts.and_more 1.
Proof.
  split; [reflexivity|].
  eexists. split; [reflexivity|].
  split; [reflexivity|].
  split; [vm_compute; reflexivity|].
  intros H. apply (f_equal (@List.length N)) in H.
  vm_compute in H. discriminate.
Qed.

(** ** Who writes to the table *)

Lemma read_only_ret {A} (a : A) : read_only (ret a).
Proof. intros w. reflexivity. Qed.

Lemma read_only_bind {A B} (m : M A) (k : A -> M B) :
  read_only m -> (forall a, read_only (k a)) -> read_only (bind m k).
Proof.
  intros Hm Hk w. unfold bind. specialize (Hm w).
  destruct (m w) as [[a|e] w1]; simpl in *; [|exact Hm].
  rewrite (Hk a w1). exact Hm.
Qed.

Lemma read_only_try_except {A} (body : M A) (handler : exn -> M A) :
  read_only body -> (forall e, read_only (handler e)) ->
  read_only (try_except body handler).
Proof.
  intros Hb Hh w. unfold try_except. specialize (Hb w).
  destruct (body w) as [[a|e] w1]; simpl in *; [exact Hb|].
  destruct (is_Exception e); simpl; [|exact Hb].
  rewrite (Hh e w1). exact Hb.
Qed.

Lemma read_only_try_except_all {A} (body handler : M A) :
  read_only body -> read_only handler ->
  read_only (try_except_all body handler).
Proof.
  intros Hb Hh w. unfold try_except_all. specialize (Hb w).
  destruct (body w) as [[a|e] w1]; simpl in *; [exact Hb|].
  rewrite (Hh w1). exact Hb.
Qed.

Lemma read_only_logger lvl m : read_only (logger lvl m).
Proof. intros w. reflexivity. Qed.

Lemma read_only_await_call c : read_only (await_call c).
Proof.
  intros w. unfold await_call.
  destruct (await_faults w) as [|[e|] rest]; reflexivity.
Qed.

Lemma read_only_fresh_message cid : read_only (fresh_message cid).
Proof. intros w. reflexivity. Qed.

(** A query that gives the table back unchanged is a read. *)
Lemma read_only_execute {A} (query : list UserRecord -> A * list UserRecord) :
  (forall t, snd (query t) = t) -> read_only (execute query).
Proof.
  intros Hq w. unfold execute. specialize (Hq (users w)).
  destruct (db_faults w) as [|[e|] rest]; try reflexivity;
    destruct (query (users w)) as [a t]; simpl in *; exact Hq.
Qed.

(** Takes a program built from the primitives apart. *)
Ltac read_only_steps :=
  repeat first
    [ apply read_only_ret
    | apply read_only_logger
    | apply read_only_await_call
    | apply read_only_fresh_message
    | apply read_only_bind
    | apply read_only_try_except
    | apply read_only_try_except_all
    | apply read_only_execute; intros ?; reflexivity
    | match goal with
      | |- read_only (match ?x with _ => _ end) => destruct x
      | |- read_only (if ?x then _ else _) => destruct x
      | |- forall _, _ => intros ?
      end ].

Lemma read_only_get_user_nick tid :
  read_only (DatabaseManager.get_user_nick tid).
Proof. unfold DatabaseManager.get_user_nick. read_only_steps. Qed.

Lemma read_only_get_stats : read_only DatabaseManager.get_stats.
Proof. unfold DatabaseManager.get_stats. read_only_steps. Qed.

Lemma read_only_search_nick ilike search_text :
  read_only (DatabaseManager.search_nick ilike search_text).
Proof. unfold DatabaseManager.search_nick. read_only_steps. Qed.

Lemma read_only_reply_text update body pm reply_to :
  read_only (reply_text update body pm reply_to).
Proof. unfold reply_text, send_message. read_only_steps. Qed.

Lemma read_only_send_message cid body pm reply_to :
  read_only (send_message cid body pm reply_to).
Proof. unfold send_message. read_only_steps. Qed.

(** After a program, read-only steps leave the table as the program left
    it. *)
Lemma bind_read_only_tail {A B} (m : M A) (k : A -> M B) w :
  (forall a, read_only (k a)) ->
  users (snd (bind m k w)) = users (snd (m w)).
Proof.
  intros Hk. unfold bind.
  destruct (m w) as [[a|e] w1]; simpl; [apply Hk|reflexivity].
Qed.

Ltac read_only_handler :=
  repeat first
    [ apply read_only_get_user_nick
    | apply read_only_get_stats
    | apply read_only_search_nick
    | apply read_only_reply_text
    | apply read_only_send_message
    | progress read_only_steps ].

(** X1.  The three lookups of the store never change the table, whatever
    the backend does: not when it answers, not when it raises. *)
Theorem store_lookups_read_only ilike :
  (forall tid, read_only (DatabaseManager.get_user_nick tid))
  /\ read_only DatabaseManager.get_stats
  /\ (forall search_text,
         read_only (DatabaseManager.search_nick ilike search_text)).
Proof.
  split; [exact read_only_get_user_nick|].
  split; [exact read_only_get_stats|].
  exact (read_only_search_nick ilike).
Qed.

(** X2.  Of all the handlers only [/nick] with arguments can change the
    table: [/start], [/mynick], [/stats], [/find], [/help], the private
    hint, the group relay and [/nick] without arguments leave it as it
    was in every world, whatever fails on the way. *)
Theorem only_nick_with_arguments_writes ilike format_date update :
  read_only (start_command update)
  /\ read_only (mynick_command format_date update)
  /\ read_only (stats_command format_date update)
  /\ (forall args, read_only (find_command ilike update args))
  /\ read_only (help_command update)
  /\ read_only (handle_private_message update)
  /\ read_only (handle_group_message update)
  /\ read_only (nick_command update []).
Proof.
  repeat split.
  - unfold start_command. read_only_handler.
  - unfold mynick_command. read_only_handler.
  - unfold stats_command. read_only_handler.
  - intros args. unfold find_command. read_only_handler.
  - unfold help_command. read_only_handler.
  - unfold handle_private_message. read_only_handler.
  - unfold handle_group_message, delete, delete_sent, sleep.
    read_only_handler.
  - unfold nick_command. read_only_handler.
Qed.

Lemma only_nick_without_arguments_reads update :
  read_only (nick_command update []).
Proof. unfold nick_command. read_only_handler. Qed.

(** ** What a save does to the table *)

Lemma rows_of_app tid t t' :
  rows_of tid (t ++ t') = rows_of tid t ++ rows_of tid t'.
Proof. unfold rows_of. apply filter_app. Qed.

Lemma rows_of_updated_table tid uname name nick now t :
  rows_of tid (updated_table tid uname name nick now t)
  = map (fun r => mkUser tid uname name nick (created_at r) now) (rows_of tid t).
Proof.
  unfold rows_of, updated_table. induction t as [|r t IH]; [reflexivity|].
  simpl. destruct (Z.eqb_spec (telegram_id r) tid) as [E|E]; simpl.
  - rewrite Z.eqb_refl. simpl. rewrite IH. reflexivity.
  - destruct (Z.eqb_spec (telegram_id r) tid); [contradiction|]. exact IH.
Qed.

Lemma rows_of_updated_table_other tid other uname name nick now t :
  other <> tid ->
  rows_of other (updated_table tid uname name nick now t) = rows_of other t.
Proof.
  intros Hne. unfold rows_of, updated_table.
  induction t as [|r t IH]; [reflexivity|].
  simpl. destruct (Z.eqb_spec (telegram_id r) tid) as [E|E]; simpl.
  - destruct (Z.eqb_spec tid other) as [E'|E']; [congruence|].
    destruct (Z.eqb_spec (telegram_id r) other); [congruence|]. exact IH.
  - rewrite IH. reflexivity.
Qed.

Lemma rows_of_nil_not_in tid t :
  rows_of tid t = [] -> ~ In tid (map telegram_id t).
Proof.
  intros Hnil Hin. apply in_map_iff in Hin. destruct Hin as [r [Hid Hr]].
  assert (H : In r (rows_of tid t)).
  { apply filter_In. split; [exact Hr|]. apply Z.eqb_eq. exact Hid. }
  rewrite Hnil in H. exact H.
Qed.

(** In every world a save leaves the table alone, rewrites the rows of
    the identity, or appends one row for it. *)
Lemma save_user_nick_table w tid uname name nick :
  let w' := snd (DatabaseManager.save_user_nick tid uname name nick w) in
  let now := clock w (clock_reads w) in
  users w' = users w
  \/ (rows_of tid (users w) <> []
      /\ users w' = updated_table tid uname name nick now (users w))
  \/ (rows_of tid (users w) = []
      /\ users w'
         = users w ++ [mkUser tid uname name nick
                              (clock w (S (clock_reads w))) now]).
Proof.
  unfold rows_of, updated_table.
  next_db_fault w; run_store;
    destruct (filter (fun r => (telegram_id r =? tid)%Z) t) eqn:E; simpl;
    repeat match goal with
           | |- context [if is_Exception ?e then _ else _] =>
             destruct (is_Exception e); simpl
           end;
    first [ left; reflexivity
          | right; right; split; reflexivity
          | right; left; split; [discriminate|reflexivity] ].
Qed.

(** A save that returns [True] did rewrite or append. *)
Lemma save_user_nick_true_table w tid uname name nick w' :
  DatabaseManager.save_user_nick tid uname name nick w = (Returns true, w') ->
  let now := clock w (clock_reads w) in
  (rows_of tid (users w) <> []
   /\ users w' = updated_table tid uname name nick now (users w))
  \/ (rows_of tid (users w) = []
      /\ users w'
         = users w ++ [mkUser tid uname name nick
                              (clock w (S (clock_reads w))) now]).
Proof.
  unfold rows_of, updated_table. intros Hrun.
  next_db_fault w; run_store;
    destruct (filter (fun r => (telegram_id r =? tid)%Z) t) eqn:E;
    simpl in Hrun;
    repeat match type of Hrun with
           | context [if is_Exception ?e then _ else _] =>
             destruct (is_Exception e); simpl in Hrun
           end;
    inversion Hrun; subst; simpl;
    first [ right; split; reflexivity
          | left; split; [discriminate|reflexivity] ].
Qed.

(** After a save that returned [True] the identity has the nickname. *)
Lemma save_user_nick_true_has_nick w tid uname name nick w' :
  DatabaseManager.save_user_nick tid uname name nick w = (Returns true, w') ->
  has_nick w' tid nick.
Proof.
  intros Hrun. unfold has_nick.
  destruct (save_user_nick_true_table w tid uname name nick w' Hrun)
    as [[Hrows ->]|[Hrows ->]].
  - rewrite rows_of_updated_table.
    destruct (rows_of tid (users w)) as [|r rest]; [contradiction|].
    simpl. do 2 eexists. split; reflexivity.
  - rewrite rows_of_app, Hrows. simpl. rewrite Z.eqb_refl.
    do 2 eexists. split; reflexivity.
Qed.

(** X3.  Round trip: once a save has returned [True], a lookup of the same
    identity that the backend answers returns exactly the nickname that
    was saved, whether the identity was new or known. *)
Theorem lookup_after_save_returns_saved_nick w tid uname name nick w' :
  DatabaseManager.save_user_nick tid uname name nick w = (Returns true, w') ->
  first_fault 1 (db_faults w') = None ->
  fst (DatabaseManager.get_user_nick tid w') = Returns (Some nick).
Proof.
  intros Hrun Hup.
  rewrite (get_user_nick_found w' tid nick Hup
             (save_user_nick_true_has_nick w tid uname name nick w' Hrun)).
  reflexivity.
Qed.

Lemma lookup_after_save_returns_saved_nick_witness :
  fst (DatabaseManager.get_user_nick 7
         (snd (DatabaseManager.save_user_nick 7 None (py "Al") (py "Zed")
                 hero_world)))
  = Returns (Some (py "Zed")).
Proof.
  exact (lookup_after_save_returns_saved_nick hero_world 7 None (py "Al")
           (py "Zed") _ eq_refl eq_refl).
Defined.

(** X4.  A save for one identity never touches the rows of another: in
    every world, whatever the outcome, the rows of every other identity
    are after the save what they were before. *)
Theorem save_user_nick_keeps_other_identities w tid uname name nick other :
  other <> tid ->
  rows_of other
    (users (snd (DatabaseManager.save_user_nick tid uname name nick w)))
  = rows_of other (users w).
Proof.
  intros Hne.
  destruct (save_user_nick_table w tid uname name nick)
    as [->|[[_ ->]|[_ ->]]].
  - reflexivity.
  - apply rows_of_updated_table_other. exact Hne.
  - rewrite rows_of_app. simpl.
    destruct (Z.eqb_spec tid other); [congruence|]. apply app_nil_r.
Qed.

Lemma save_user_nick_keeps_other_identities_witness :
  rows_of 1 (users (snd (DatabaseManager.save_user_nick 2 None (py "Ben")
                           (py "Champion") trio_world)))
  = [mkUser 1 None (py "Ann") (py "ProPlayer") 10 10].
Proof.
  rewrite (save_user_nick_keeps_other_identities trio_world 2 None (py "Ben")
             (py "Champion") 1 ltac:(discriminate)).
  reflexivity.
Defined.

(** X5.  Saves keep identities unique: when no identity has two rows
    before a save, none has two rows after it, whatever the outcome. *)
Theorem save_user_nick_keeps_one_row_each w tid uname name nick :
  one_row_each (users w) ->
  one_row_each
    (users (snd (DatabaseManager.save_user_nick tid uname name nick w))).
Proof.
  unfold one_row_each. intros Huniq.
  destruct (save_user_nick_table w tid uname name nick)
    as [->|[[_ ->]|[Hnew ->]]].
  - exact Huniq.
  - rewrite updated_table_ids. exact Huniq.
  - rewrite map_app. simpl.
    apply Permutation_NoDup with (l := tid :: map telegram_id (users w)).
    + apply Permutation_cons_append.
    + constructor; [exact (rows_of_nil_not_in tid (users w) Hnew)|exact Huniq].
Qed.

Lemma save_user_nick_keeps_one_row_each_witness :
  one_row_each (users trio_world)
  /\ one_row_each
       (users (snd (DatabaseManager.save_user_nick 4 None (py "Dee")
                      (py "Fourth") trio_world))).
Proof.
  assert (H : one_row_each (users trio_world)).
  { unfold one_row_each. simpl.
    repeat (constructor; [simpl; intuition discriminate|]). constructor. }
  split; [exact H|].
  exact (save_user_nick_keeps_one_row_each trio_world 4 None (py "Dee")
           (py "Fourth") H).
Defined.

(** ** Statistics *)

Lemma insert_desc_perm r sorted :
  Permutation (insert_desc r sorted) (r :: sorted).
Proof.
  induction sorted as [|s rest IH]; simpl; [apply Permutation_refl|].
  destruct (created_at s <? created_at r)%Z; [apply Permutation_refl|].
  apply perm_trans with (s :: r :: rest).
  - apply perm_skip. exact IH.
  - apply perm_swap.
Qed.

Lemma insert_desc_hd r s rest :
  not_older s r -> HdRel not_older s rest ->
  HdRel not_older s (insert_desc r rest).
Proof.
  intros Hsr Hhd. destruct rest as [|x rest]; simpl.
  - constructor. exact Hsr.
  - destruct (created_at x <? created_at r)%Z; constructor;
      [exact Hsr|inversion Hhd; assumption].
Qed.

Lemma insert_desc_sorted r sorted :
  Sorted not_older sorted -> Sorted not_older (insert_desc r sorted).
Proof.
  induction sorted as [|s rest IH]; intros Hs; simpl.
  - repeat constructor.
  - inversion Hs as [|? ? Hrest Hhd]; subst.
    destruct (Z.ltb_spec (created_at s) (created_at r)) as [Hlt|Hge].
    + constructor; [exact Hs|]. constructor. unfold not_older. lia.
    + constructor; [exact (IH Hrest)|].
      apply insert_desc_hd; [exact Hge|exact Hhd].
Qed.

Lemma fold_insert_desc t acc :
  Sorted not_older acc ->
  Sorted not_older (fold_left (fun a r => insert_desc r a) t acc)
  /\ Permutation (fold_left (fun a r => insert_desc r a) t acc) (acc ++ t).
Proof.
  revert acc. induction t as [|r t IH]; intros acc Hacc; simpl.
  - split; [exact Hacc|]. rewrite app_nil_r. apply Permutation_refl.
  - destruct (IH (insert_desc r acc) (insert_desc_sorted r acc Hacc))
      as [Hs Hp].
    split; [exact Hs|].
    apply perm_trans with (insert_desc r acc ++ t); [exact Hp|].
    apply perm_trans with ((r :: acc) ++ t).
    + apply Permutation_app_tail. apply insert_desc_perm.
    + simpl. apply Permutation_middle.
Qed.

(** Ordering by [created_at] rearranges the table, newest first. *)
Lemma order_created_at_desc_spec t :
  Sorted not_older (order_created_at_desc t)
  /\ Permutation (order_created_at_desc t) t.
Proof.
  unfold order_created_at_desc.
  exact (fold_insert_desc t [] (Sorted_nil _)).
Qed.

(** With the backend up, statistics are the count of the table and the
    first five rows of the table ordered newest first. *)
Lemma get_stats_ok w :
  first_fault 2 (db_faults w) = None ->
  exists w',
    DatabaseManager.get_stats w
    = (Returns (DatabaseManager.mkStats
                  (List.length (users w))
                  (map recent_of (firstn 5 (order_created_at_desc (users w))))),
       w')
    /\ users w' = users w /\ calls w' = calls w /\ log w' = log w
    /\ db_faults w' = skipn 2 (db_faults w).
Proof.
  intros Hup. unfold recent_of.
  next_db_fault w; try discriminate; run_store;
    eexists; repeat split; reflexivity.
Qed.

(** With the backend failing, statistics are empty. *)
Lemma get_stats_fails w e :
  first_fault 2 (db_faults w) = Some e -> is_Exception e = true ->
  exists w',
    DatabaseManager.get_stats w
    = (Returns (DatabaseManager.mkStats 0 []), w')
    /\ users w' = users w /\ calls w' = calls w
    /\ log w' = log w ++ [(ERROR, stats_failed e)].
Proof.
  intros Hf He.
  next_db_fault w; try discriminate; run_store; run_handlers;
    eexists; repeat split; reflexivity.
Qed.

(** X6.  With the backend up, [get_stats] counts every row of the table
    and lists the newest rows first: the list is the first five rows of a
    rearrangement of the table in which no row stands before a newer one,
    so it has five rows, or all of them when the table is smaller. *)
Theorem get_stats_counts_and_orders w :
  first_fault 2 (db_faults w) = None ->
  exists stats ordered,
    fst (DatabaseManager.get_stats w) = Returns stats
    /\ DatabaseManager.total stats = List.length (users w)
    /\ Permutation ordered (users w)
    /\ Sorted not_older ordered
    /\ DatabaseManager.recent stats = map recent_of (firstn 5 ordered)
    /\ List.length (DatabaseManager.recent stats)
       = Nat.min 5 (List.length (users w)).
Proof.
  intros Hup. destruct (get_stats_ok w Hup) as [w' [Hrun _]].
  destruct (order_created_at_desc_spec (users w)) as [Hsorted Hperm].
  eexists. exists (order_created_at_desc (users w)).
  rewrite Hrun. split; [reflexivity|].
  cbn [DatabaseManager.total DatabaseManager.recent].
  split; [reflexivity|].
  split; [exact Hperm|]. split; [exact Hsorted|]. split; [reflexivity|].
  rewrite length_map, length_firstn.
  rewrite (Permutation_length Hperm). reflexivity.
Qed.

Lemma get_stats_counts_and_orders_witness :
  fst (DatabaseManager.get_stats trio_world)
  = Returns (DatabaseManager.mkStats 3
               [mkRecent (py "Ben") (py "ProGamer") 30;
                mkRecent (py "Cy") (py "Zed") 20;
                mkRecent (py "Ann") (py "ProPlayer") 10]).
Proof.
  destruct (get_stats_counts_and_orders trio_world eq_refl)
    as [stats [ordered [Hrun _]]].
  rewrite Hrun. vm_compute in Hrun. injection Hrun as <-. reflexivity.
Defined.

(** X7.  Saving and counting compose: after a save that returned [True],
    statistics that the backend answers report one row more than the
    table had when the identity was new, and as many as before when it
    was known. *)
Theorem total_after_save w tid uname name nick w' :
  DatabaseManager.save_user_nick tid uname name nick w = (Returns true, w') ->
  first_fault 2 (db_faults w') = None ->
  exists stats,
    fst (DatabaseManager.get_stats w') = Returns stats
    /\ DatabaseManager.total stats
       = match rows_of tid (users w) with
         | [] => S (List.length (users w))
         | _ :: _ => List.length (users w)
         end.
Proof.
  intros Hsave Hup. destruct (get_stats_ok w' Hup) as [w'' [Hrun _]].
  eexists. rewrite Hrun. split; [reflexivity|].
  cbn [DatabaseManager.total].
  destruct (save_user_nick_true_table w tid uname name nick w' Hsave)
    as [[Hrows ->]|[Hrows ->]].
  - destruct (rows_of tid (users w)); [contradiction|].
    unfold updated_table. apply length_map.
  - rewrite Hrows, length_app. simpl. lia.
Qed.

Lemma total_after_save_witness :
  fst (DatabaseManager.get_stats
         (snd (DatabaseManager.save_user_nick 4 None (py "Dee") (py "Fourth")
                 trio_world)))
  = Returns (DatabaseManager.mkStats 4
               [mkRecent (py "Dee") (py "Fourth") 1001;
                mkRecent (py "Ben") (py "ProGamer") 30;
                mkRecent (py "Cy") (py "Zed") 20;
                mkRecent (py "Ann") (py "ProPlayer") 10]).
Proof.
  destruct (total_after_save trio_world 4 None (py "Dee") (py "Fourth")
              (snd (DatabaseManager.save_user_nick 4 None (py "Dee")
                      (py "Fourth") trio_world))
              eq_refl eq_refl) as [stats [Hrun _]].
  rewrite Hrun. vm_compute in Hrun. injection Hrun as <-. reflexivity.
Defined.

(** ** Searching *)

Lemma search_nick_ok ilike search_text w :
  first_fault 1 (db_faults w) = None ->
  exists w',
    DatabaseManager.search_nick ilike search_text w
    = (Returns (map found_of
                    (firstn 10 (filter (DatabaseManager.matches ilike search_text)
                                       (users w)))), w')
    /\ users w' = users w /\ calls w' = calls w /\ log w' = log w.
Proof.
  intros Hup. unfold found_of.
  next_db_fault w; try discriminate; run_store;
    eexists; repeat split; reflexivity.
Qed.

Lemma search_nick_fails ilike search_text w e :
  first_fault 1 (db_faults w) = Some e -> is_Exception e = true ->
  exists w',
    DatabaseManager.search_nick ilike search_text w = (Returns [], w')
    /\ users w' = users w /\ calls w' = calls w
    /\ log w' = log w ++ [(ERROR, search_failed e)].
Proof.
  intros Hf He.
  next_db_fault w; try discriminate; run_store; run_handlers;
    eexists; repeat split; reflexivity.
Qed.

Lemma in_firstn {A} n (l : list A) x : In x (firstn n l) -> In x l.
Proof.
  intros H. rewrite <- (firstn_skipn n l). apply in_or_app. left. exact H.
Qed.

(** X8.  With the backend up, [search_nick] returns only rows that match,
    never more than ten of them, and all of them when at most ten rows
    of the table match. *)
Theorem search_nick_sound_and_complete ilike search_text w :
  first_fault 1 (db_faults w) = None ->
  let matching := filter (DatabaseManager.matches ilike search_text) (users w) in
  exists rows,
    fst (DatabaseManager.search_nick ilike search_text w) = Returns rows
    /\ (forall row, In row rows ->
          exists r, In r (users w)
                    /\ DatabaseManager.matches ilike search_text r = true
                    /\ row = found_of r)
    /\ List.length rows = Nat.min 10 (List.length matching)
    /\ (List.length matching <= 10 -> rows = map found_of matching).
Proof.
  intros Hup matching.
  destruct (search_nick_ok ilike search_text w Hup) as [w' [Hrun _]].
  eexists. rewrite Hrun. split; [reflexivity|]. fold matching.
  split; [|split].
  - intros row Hrow. apply in_map_iff in Hrow.
    destruct Hrow as [r [Hproj Hr]]. apply in_firstn in Hr.
    apply filter_In in Hr. destruct Hr as [Hin Hm].
    exists r. repeat split; [exact Hin|exact Hm|symmetry; exact Hproj].
  - rewrite length_map, length_firstn. reflexivity.
  - intros Hfew. rewrite firstn_all2 by exact Hfew. reflexivity.
Qed.

Lemma search_nick_sound_and_complete_witness :
  fst (DatabaseManager.search_nick ascii_ilike (py "pro") trio_world)
  = Returns [mkFound (py "Ann") (py "ProPlayer");
             mkFound (py "Ben") (py "ProGamer")].
Proof.
  destruct (search_nick_sound_and_complete ascii_ilike (py "pro") trio_world
              eq_refl) as [rows [Hrun [_ [_ Hall]]]].
  rewrite Hrun, (Hall ltac:(vm_compute; lia)). reflexivity.
Defined.

(** ** /nick: saving *)

Lemma first_forbidden_none chars s :
  first_forbidden chars s = None
  <-> forallb (fun c => negb (contains c s)) chars = true.
Proof.
  induction chars as [|c chars IH]; simpl; [tauto|].
  destruct (contains c s); simpl; [split; discriminate|exact IH].
Qed.

Lemma valid_nick_checks s :
  valid_nick s = true ->
  (len s <? 2) = false /\ (32 <? len s) = false
  /\ first_forbidden forbidden_chars s = None.
Proof.
  unfold valid_nick. intros H.
  apply andb_prop in H. destruct H as [H Hchars].
  apply andb_prop in H. destruct H as [Hmin Hmax].
  apply Nat.leb_le in Hmin. apply Nat.leb_le in Hmax.
  split; [apply Nat.ltb_ge; exact Hmin|].
  split; [apply Nat.ltb_ge; exact Hmax|].
  apply first_forbidden_none. exact Hchars.
Qed.

Lemma nick_command_valid update args w :
  args <> [] -> valid_nick (candidate args) = true ->
  nick_command update args w
  = bind (DatabaseManager.save_user_nick
            (user_id (effective_user update)) (username (effective_user update))
            (first_name (effective_user update)) (candidate args))
         (after_save update (candidate args)) w.
Proof.
  intros Hargs Hvalid. destruct args as [|a args]; [contradiction|].
  destruct (valid_nick_checks _ Hvalid) as [Hmin [Hmax Hchars]].
  unfold nick_command. fold (candidate (a :: args)).
  rewrite Hmin, Hmax, Hchars. reflexivity.
Qed.

Lemma read_only_after_save update game_nick success :
  read_only (after_save update game_nick success).
Proof. unfold after_save. read_only_handler. Qed.

(** In every world [/nick] leaves the table alone or does to it what a
    save of a candidate that passed the checks does. *)
Lemma nick_command_table update args w :
  users (snd (nick_command update args w)) = users w
  \/ (valid_nick (candidate args) = true
      /\ users (snd (nick_command update args w))
         = users (snd (DatabaseManager.save_user_nick
                         (user_id (effective_user update))
                         (username (effective_user update))
                         (first_name (effective_user update))
                         (candidate args) w))).
Proof.
  destruct (valid_nick (candidate args)) eqn:Hvalid.
  - destruct args as [|a args].
    + left. apply (only_nick_without_arguments_reads update).
    + right. split; [reflexivity|].
      rewrite (nick_command_valid update (a :: args) w ltac:(discriminate) Hvalid).
      apply bind_read_only_tail. intros success. apply read_only_after_save.
  - left. destruct args as [|a args].
    + apply (only_nick_without_arguments_reads update).
    + unfold nick_command. fold (candidate (a :: args)).
      destruct (len (candidate (a :: args)) <? 2) eqn:Hmin;
        [apply reply_and_return|].
      destruct (32 <? len (candidate (a :: args))) eqn:Hmax;
        [apply reply_and_return|].
      destruct (first_forbidden forbidden_chars (candidate (a :: args)))
        eqn:Hchars; [apply reply_and_return|].
      exfalso. unfold valid_nick in Hvalid.
      apply Nat.ltb_ge in Hmin. apply Nat.ltb_ge in Hmax.
      apply Nat.leb_le in Hmin. apply Nat.leb_le in Hmax.
      apply first_forbidden_none in Hchars.
      rewrite Hmin, Hmax, Hchars in Hvalid. discriminate.
Qed.

Lemma first_fault_skipn n m faults :
  first_fault (n + m) faults = None ->
  first_fault n faults = None /\ first_fault m (skipn n faults) = None.
Proof.
  revert faults. induction n as [|n IH]; intros faults H; simpl in *.
  - split; [destruct faults; reflexivity|exact H].
  - destruct faults as [|[e|] rest]; try discriminate.
    + split; [reflexivity|]. destruct m; reflexivity.
    + exact (IH rest H).
Qed.

Lemma save_user_nick_ok w tid uname name nick :
  first_fault 2 (db_faults w) = None ->
  exists w',
    DatabaseManager.save_user_nick tid uname name nick w = (Returns true, w')
    /\ calls w' = calls w /\ db_faults w' = skipn 2 (db_faults w).
Proof.
  intros Hup.
  next_db_fault w; try discriminate; run_store;
    destruct (filter _ t); simpl; eexists; repeat split; reflexivity.
Qed.

Lemma save_user_nick_fails w tid uname name nick e :
  first_fault 2 (db_faults w) = Some e -> is_Exception e = true ->
  exists w',
    DatabaseManager.save_user_nick tid uname name nick w = (Returns false, w')
    /\ users w' = users w /\ calls w' = calls w
    /\ log w' = log w ++ [(ERROR, save_nick_failed e)].
Proof.
  intros Hf He.
  next_db_fault w; try discriminate; run_store; run_handlers;
    try destruct (filter _ t); simpl; run_handlers;
    eexists; repeat split; reflexivity.
Qed.

(** The world after the reply that ends a handler. *)
Lemma reply_and_return_frame update body pm reply_to w :
  let w' := snd ((reply_text update body pm reply_to ;; ret tt) w) in
  calls w' = calls w
             ++ [SendMessage (chat_id (chat (message update))) body pm
                             (reply_target update reply_to)]
  /\ users w' = users w /\ db_faults w' = db_faults w /\ log w' = log w.
Proof.
  destruct (reply_and_return update body pm reply_to w)
    as [Hcalls [Husers [Hfaults [_ Hlog]]]].
  repeat split; assumption.
Qed.

(** [/nick] with a valid candidate and the backend up for the save and
    the count. *)
Lemma nick_command_ok update args w :
  args <> [] -> valid_nick (candidate args) = true ->
  first_fault 4 (db_faults w) = None ->
  let user := effective_user update in
  let w' := snd (nick_command update args w) in
  has_nick w' (user_id user) (candidate args)
  /\ calls w'
     = calls w ++ [markdown_reply update
                     (Texts.saved (first_name user) (candidate args)
                                  (List.length (users w')))]
  /\ db_faults w' = skipn 4 (db_faults w).
Proof.
  intros Hargs Hvalid Hup user w'. subst w'.
  destruct (first_fault_skipn 2 2 _ Hup) as [Hup1 Hup2].
  destruct (save_user_nick_ok w (user_id user) (username user)
              (first_name user) (candidate args) Hup1)
    as [w1 [Hsave [Hcalls1 Hfaults1]]].
  rewrite <- Hfaults1 in Hup2.
  destruct (get_stats_ok w1 Hup2)
    as [w2 [Hstats [Husers2 [Hcalls2 [_ Hfaults2]]]]].
  rewrite (nick_command_valid update args w Hargs Hvalid).
  fold user. rewrite (bind_returns _ _ _ _ _ Hsave).
  unfold after_save. rewrite (bind_returns _ _ _ _ _ Hstats).
  cbn [DatabaseManager.total]. fold user.
  destruct (reply_and_return_frame update
              (Texts.saved (first_name user) (candidate args)
                           (List.length (users w1)))
              (Some Markdown) None w2)
    as [Hcalls [Husers [Hfaults _]]].
  assert (Htable : users (snd ((reply_text update
                                  (Texts.saved (first_name user) (candidate args)
                                               (List.length (users w1)))
                                  (Some Markdown) None ;; ret tt) w2))
                   = users w1) by (rewrite Husers; exact Husers2).
  split; [|split].
  - pose proof (save_user_nick_true_has_nick w _ _ _ _ w1 Hsave) as Hnick.
    unfold has_nick in *. rewrite Htable. exact Hnick.
  - rewrite Hcalls, Hcalls2, Hcalls1, Htable. reflexivity.
  - rewrite Hfaults, Hfaults2, Hfaults1.
    destruct (db_faults w) as [|f1 [|f2 rest]]; reflexivity.
Qed.

(** X9.  When the candidate nickname passes the checks and the backend
    answers, [/nick] stores the candidate as the sender's nickname and
    sends one reply in Markdown, the confirmation with the candidate and
    the number of rows the table now has. *)
Theorem nick_command_saves_and_confirms update args w :
  args <> [] -> valid_nick (candidate args) = true ->
  first_fault 4 (db_faults w) = None ->
  let user := effective_user update in
  let w' := snd (nick_command update args w) in
  has_nick w' (user_id user) (candidate args)
  /\ calls w'
     = calls w ++ [markdown_reply update
                     (Texts.saved (first_name user) (candidate args)
                                  (List.length (users w')))].
Proof.
  intros Hargs Hvalid Hup user w'.
  destruct (nick_command_ok update args w Hargs Hvalid Hup) as [Hnick [Hcalls _]].
  split; [exact Hnick|exact Hcalls].
Qed.

Lemma nick_command_saves_and_confirms_witness :
  valid_nick (candidate [py "Iron"; py "Fist"]) = true
  /\ users (snd (nick_command (alice_says "/nick Iron Fist")
                   [py "Iron"; py "Fist"] ticking_world))
     = [mkUser 7 (Some (py "alice")) (py "Alice") (py "Iron Fist") 1001 1000]
  /\ calls (snd (nick_command (alice_says "/nick Iron Fist")
                   [py "Iron"; py "Fist"] ticking_world))
     = [SendMessage (-100)
       (Texts.saved (py "Alice") (py "Iron Fist") 1)
       (Some Markdown) (Some 42%Z)].
Proof.
  split; [reflexivity|]. split; [reflexivity|].
  exact (proj2 (nick_command_saves_and_confirms (alice_says "/nick Iron Fist")
                  [py "Iron"; py "Fist"] ticking_world
                  ltac:(discriminate) eq_refl eq_refl)).
Defined.

(** X10.  When the candidate passes the checks but a round trip of the
    save raises, [/nick] sends the plain could-not-save reply and nothing
    else, the table is as it was and one ERROR record names the
    exception. *)
Theorem nick_command_reports_failed_save update args w e :
  args <> [] -> valid_nick (candidate args) = true ->
  first_fault 2 (db_faults w) = Some e -> is_Exception e = true ->
  let w' := snd (nick_command update args w) in
  replied_only update Texts.not_saved w w'
  /\ users w' = users w
  /\ log w' = log w ++ [(ERROR, save_nick_failed e)].
Proof.
  intros Hargs Hvalid Hf He w'. subst w'.
  destruct (save_user_nick_fails w (user_id (effective_user update))
              (username (effective_user update))
              (first_name (effective_user update)) (candidate args) e Hf He)
    as [w1 [Hsave [Husers1 [Hcalls1 Hlog1]]]].
  rewrite (nick_command_valid update args w Hargs Hvalid).
  rewrite (bind_returns _ _ _ _ _ Hsave). unfold after_save, replied_only.
  destruct (reply_and_return_frame update Texts.not_saved None None w1)
    as [Hcalls [Husers [_ Hlog]]].
  rewrite Hcalls, Husers, Hlog, Hcalls1, Husers1, Hlog1.
  repeat split; reflexivity.
Qed.

Lemma nick_command_reports_failed_save_witness :
  calls (snd (nick_command (alice_says "/nick Zed") [py "Zed"]
                (backend_down hero_world)))
  = [SendMessage (-100) Texts.not_saved None (Some 42%Z)]
  /\ users (snd (nick_command (alice_says "/nick Zed") [py "Zed"]
                   (backend_down hero_world)))
     = users hero_world.
Proof.
  destruct (nick_command_reports_failed_save (alice_says "/nick Zed")
              [py "Zed"] (backend_down hero_world) APIError
              ltac:(discriminate) eq_refl eq_refl eq_refl)
    as [Hreply [Husers _]].
  split; [exact Hreply|exact Husers].
Defined.

(** X11.  When the save goes through and then a round trip of the count
    raises, [/nick] still confirms, and the confirmation gives the number
    of players as 0 although the sender's row is in the table. *)
Theorem nick_command_confirms_with_zero update args w e :
  args <> [] -> valid_nick (candidate args) = true ->
  first_fault 2 (db_faults w) = None ->
  first_fault 2 (skipn 2 (db_faults w)) = Some e -> is_Exception e = true ->
  let user := effective_user update in
  let w' := snd (nick_command update args w) in
  has_nick w' (user_id user) (candidate args)
  /\ calls w'
     = calls w ++ [markdown_reply update
                     (Texts.saved (first_name user) (candidate args) 0)].
Proof.
  intros Hargs Hvalid Hup Hf He user w'. subst w'.
  destruct (save_user_nick_ok w (user_id user) (username user)
              (first_name user) (candidate args) Hup)
    as [w1 [Hsave [Hcalls1 Hfaults1]]].
  rewrite <- Hfaults1 in Hf.
  destruct (get_stats_fails w1 e Hf He) as [w2 [Hstats [Husers2 [Hcalls2 _]]]].
  rewrite (nick_command_valid update args w Hargs Hvalid).
  fold user. rewrite (bind_returns _ _ _ _ _ Hsave).
  unfold after_save. rewrite (bind_returns _ _ _ _ _ Hstats).
  cbn [DatabaseManager.total]. fold user.
  destruct (reply_and_return_frame update
              (Texts.saved (first_name user) (candidate args) 0)
              (Some Markdown) None w2)
    as [Hcalls [Husers _]].
  split.
  - pose proof (save_user_nick_true_has_nick w _ _ _ _ w1 Hsave) as Hnick.
    unfold has_nick in *. rewrite Husers, Husers2. exact Hnick.
  - rewrite Hcalls, Hcalls2, Hcalls1. reflexivity.
Qed.

Lemma nick_command_confirms_with_zero_witness :
  users (snd (nick_command (alice_says "/nick Zed") [py "Zed"]
                (down_after_save ticking_world)))
  = [mkUser 7 (Some (py "alice")) (py "Alice") (py "Zed") 1001 1000]
  /\ calls (snd (nick_command (alice_says "/nick Zed") [py "Zed"]
                   (down_after_save ticking_world)))
     = [SendMessage (-100)
       (Texts.saved (py "Alice") (py "Zed") 0)
       (Some Markdown) (Some 42%Z)].
Proof.
  split; [reflexivity|].
  exact (proj2 (nick_command_confirms_with_zero (alice_says "/nick Zed")
                  [py "Zed"] (down_after_save ticking_world) APIError
                  ltac:(discriminate) eq_refl eq_refl eq_refl eq_refl)).
Defined.

(** X12.  [/nick] keeps the table's nicknames valid: when every nickname
    in the table has 2 to 32 characters and no forbidden one, the same
    holds after [/nick], for all arguments and in every world. *)
Theorem nick_command_keeps_nicks_valid update args w :
  nicks_valid (users w) ->
  nicks_valid (users (snd (nick_command update args w))).
Proof.
  intros Hvalid.
  destruct (nick_command_table update args w) as [->|[Hcand ->]];
    [exact Hvalid|].
  destruct (save_user_nick_table w (user_id (effective_user update))
              (username (effective_user update))
              (first_name (effective_user update)) (candidate args))
    as [->|[[_ ->]|[_ ->]]].
  - exact Hvalid.
  - intros r Hr. unfold updated_table in Hr. apply in_map_iff in Hr.
    destruct Hr as [r0 [Hr0 Hin]].
    destruct (telegram_id r0 =? user_id (effective_user update))%Z;
      subst r; [exact Hcand|exact (Hvalid r0 Hin)].
  - intros r Hr. apply in_app_or in Hr. destruct Hr as [Hr|[<-|[]]];
      [exact (Hvalid r Hr)|exact Hcand].
Qed.

Lemma nick_command_keeps_nicks_valid_witness :
  nicks_valid (users hero_world)
  /\ nicks_valid (users (snd (nick_command (alice_says "/nick Zed") [py "Zed"]
                                hero_world))).
Proof.
  assert (H : nicks_valid (users hero_world)).
  { intros r [<-|[]]. reflexivity. }
  split; [exact H|].
  exact (nick_command_keeps_nicks_valid (alice_says "/nick Zed") [py "Zed"]
           hero_world H).
Defined.

(** ** The group relay, further *)

Lemma get_user_nick_fails w tid e :
  first_fault 1 (db_faults w) = Some e -> is_Exception e = true ->
  exists w1,
    DatabaseManager.get_user_nick tid w = (Returns None, w1)
    /\ calls w1 = calls w /\ users w1 = users w
    /\ log w1 = log w ++ [(ERROR, get_nick_failed e)].
Proof.
  intros Hf He.
  next_db_fault w; try discriminate; run_store; run_handlers;
    eexists; repeat split; reflexivity.
Qed.

(** Once the lookup has given a nickname the first call is the post. *)
Lemma handle_group_message_relays update body nick w w1 :
  in_group update -> non_command_text update body ->
  DatabaseManager.get_user_nick (user_id (effective_user update)) w
  = (Returns (Some nick), w1) ->
  nick <> [] ->
  exists rest,
    calls (snd (handle_group_message update w))
    = calls w1 ++ relay_post update nick body :: rest
    /\ forall c, In c rest -> is_delete c.
Proof.
  intros Hgroup Htext Hlookup Hne.
  rewrite (handle_group_message_lookup update body w Hgroup Htext).
  rewrite (bind_returns _ _ _ _ _ Hlookup). clear Hlookup.
  destruct nick as [|c nick]; [contradiction|].
  unfold relay_post, is_delete.
  destruct w1 as [t dbf awf clk n mid cs lg].
  destruct awf as [|[e1|] [|[e2|] [|[e3|] awf]]]; run_bot;
    repeat match goal with
           | |- context [if is_Exception ?e then _ else _] =>
             destruct (is_Exception e); simpl
           end;
    repeat rewrite <- app_assoc; simpl;
    eexists; (split; [reflexivity|]);
    intros c' Hc'; simpl in Hc'; intuition (subst; eauto).
Qed.

(** Once the lookup has given nothing, or an empty nickname, the first
    call is the reminder, and what follows is the pause and a deletion. *)
Lemma handle_group_message_reminds update body found w w1 :
  in_group update -> non_command_text update body ->
  DatabaseManager.get_user_nick (user_id (effective_user update)) w
  = (Returns found, w1) ->
  found = None \/ found = Some [] ->
  exists rest,
    calls (snd (handle_group_message update w))
    = calls w1 ++ reminder_post update :: rest
    /\ forall c, In c rest -> c = Sleep 15 \/ is_delete c.
Proof.
  intros Hgroup Htext Hlookup Hnone.
  rewrite (handle_group_message_lookup update body w Hgroup Htext).
  rewrite (bind_returns _ _ _ _ _ Hlookup). clear Hlookup.
  unfold reminder_post, is_delete.
  destruct w1 as [t dbf awf clk n mid cs lg].
  destruct Hnone as [-> | ->];
    destruct awf as [|[e1|] [|[e2|] [|[e3|] awf]]]; run_bot;
    repeat match goal with
           | |- context [if is_Exception ?e then _ else _] =>
             destruct (is_Exception e); simpl
           end;
    repeat rewrite <- app_assoc; simpl;
    eexists; (split; [reflexivity|]);
    intros c' Hc'; simpl in Hc'; intuition (subst; eauto).
Qed.

Lemma valid_nick_not_empty s : valid_nick s = true -> s <> [].
Proof. intros H ->. discriminate. Qed.

(** X13.  The two halves fit: after a [/nick] that saved a valid
    candidate, with the backend still up, the next group message of the
    same sender is relayed under exactly that candidate. *)
Theorem relay_uses_nick_set_by_nick_command update args message body w :
  args <> [] -> valid_nick (candidate args) = true ->
  first_fault 5 (db_faults w) = None ->
  in_group message -> non_command_text message body ->
  user_id (effective_user message) = user_id (effective_user update) ->
  let w1 := snd (nick_command update args w) in
  exists rest,
    calls (snd (handle_group_message message w1))
    = calls w1 ++ relay_post message (candidate args) body :: rest.
Proof.
  intros Hargs Hvalid Hup Hgroup Htext Hsame w1.
  destruct (first_fault_skipn 4 1 _ Hup) as [Hup4 Hup1].
  destruct (nick_command_ok update args w Hargs Hvalid Hup4)
    as [Hnick [_ Hfaults]].
  fold w1 in Hnick, Hfaults. rewrite <- Hfaults in Hup1.
  rewrite <- Hsame in Hnick.
  pose proof (get_user_nick_found w1 _ _ Hup1 Hnick) as Hlookup.
  destruct (handle_group_message_relays message body (candidate args) w1 _
              Hgroup Htext Hlookup (valid_nick_not_empty _ Hvalid))
    as [rest [Hcalls _]].
  exists rest. exact Hcalls.
Qed.

Lemma relay_uses_nick_set_by_nick_command_witness :
  calls (snd (handle_group_message (alice_says "hello")
                (snd (nick_command (alice_whispers "/nick Iron Fist")
                        [py "Iron"; py "Fist"] ticking_world))))
  = [SendMessage 7 (Texts.saved (py "Alice") (py "Iron Fist") 1)
                 (Some Markdown) None;
     SendMessage (-100) (py "**🎮 Iron Fist:** hello") (Some Markdown) None;
     DeleteMessage (-100) 42].
Proof.
  destruct (relay_uses_nick_set_by_nick_command
              (alice_whispers "/nick Iron Fist") [py "Iron"; py "Fist"]
              (alice_says "hello") (py "hello") ticking_world
              ltac:(discriminate) eq_refl eq_refl
              ltac:(left; reflexivity) ltac:(split; reflexivity) eq_refl)
    as [rest Hcalls].
  rewrite Hcalls. vm_compute in Hcalls. vm_compute.
  injection Hcalls as <-. reflexivity.
Defined.

(** X14.  The relay ignores what is not its business: for a message in a
    private chat or a channel, and for a text that starts with a slash,
    the handler returns at once and the world is exactly as it was: no
    lookup, no call, no log record. *)
Theorem handle_group_message_ignores update w :
  chat_type (chat (message update)) = private
  \/ chat_type (chat (message update)) = channel
  \/ (exists body, text (message update) = Some body
                   /\ startswith body (py "/") = true) ->
  handle_group_message update w = (Returns tt, w).
Proof.
  intros H. unfold handle_group_message.
  destruct H as [-> | [-> | [body [-> ->]]]]; try reflexivity.
  destruct (chat_type (chat (message update))); reflexivity.
Qed.

Lemma handle_group_message_ignores_witness :
  handle_group_message (alice_says "/nick Zed") hero_world
  = (Returns tt, hero_world)
  /\ handle_group_message (alice_whispers "hello") hero_world
     = (Returns tt, hero_world).
Proof.
  split.
  - apply handle_group_message_ignores. right. right.
    exists (py "/nick Zed"). split; reflexivity.
  - apply handle_group_message_ignores. left. reflexivity.
Defined.

(** X15.  A backend outage turns every sender into one without a
    nickname: when the lookup raises, the handler logs the ERROR and,
    whatever the table holds for the sender, posts the reminder, not a
    relay; what follows is the pause and a deletion. *)
Theorem outage_gives_reminder update body w e :
  in_group update -> non_command_text update body ->
  first_fault 1 (db_faults w) = Some e -> is_Exception e = true ->
  exists rest,
    calls (snd (handle_group_message update w))
    = calls w ++ reminder_post update :: rest
    /\ (forall c, In c rest -> c = Sleep 15 \/ is_delete c)
    /\ fst (DatabaseManager.get_user_nick (user_id (effective_user update)) w)
       = Returns None.
Proof.
  intros Hgroup Htext Hf He.
  destruct (get_user_nick_fails w (user_id (effective_user update)) e Hf He)
    as [w1 [Hlookup [Hcalls _]]].
  destruct (handle_group_message_reminds update body None w w1
              Hgroup Htext Hlookup (or_introl eq_refl))
    as [rest [Hrun Hrest]].
  exists rest. rewrite Hrun, Hcalls, Hlookup.
  split; [reflexivity|]. split; [exact Hrest|reflexivity].
Qed.

Lemma outage_gives_reminder_witness :
  has_nick (backend_down hero_world) 7 (py "Hero")
  /\ calls (snd (handle_group_message (alice_says "hi")
                   (backend_down hero_world)))
     = [reminder_post (alice_says "hi"); Sleep 15; DeleteMessage (-100) 500].
Proof.
  split; [do 2 eexists; split; reflexivity|].
  destruct (outage_gives_reminder (alice_says "hi") (py "hi")
              (backend_down hero_world) APIError
              ltac:(left; reflexivity) ltac:(split; reflexivity)
              eq_refl eq_refl) as [rest [Hcalls _]].
  rewrite Hcalls. vm_compute in Hcalls. vm_compute.
  injection Hcalls as <-. reflexivity.
Defined.

(** X16.  A row with an empty nickname counts as no nickname: when the
    sender's row carries the empty string the handler posts the
    reminder, not a relay. *)
Theorem empty_nick_gives_reminder update body w :
  in_group update -> non_command_text update body ->
  first_fault 1 (db_faults w) = None ->
  has_nick w (user_id (effective_user update)) [] ->
  exists rest,
    calls (snd (handle_group_message update w))
    = calls w ++ reminder_post update :: rest
    /\ forall c, In c rest -> c = Sleep 15 \/ is_delete c.
Proof.
  intros Hgroup Htext Hup Hnick.
  pose proof (get_user_nick_found w _ _ Hup Hnick) as Hlookup.
  destruct (handle_group_message_reminds update body (Some []) w _
              Hgroup Htext Hlookup (or_intror eq_refl))
    as [rest [Hrun Hrest]].
  exists rest. split; [exact Hrun|exact Hrest].
Qed.

Lemma empty_nick_gives_reminder_witness :
  has_nick blank_world 8 []
  /\ calls (snd (handle_group_message (bob_says "hi") blank_world))
     = [reminder_post (bob_says "hi"); Sleep 15; DeleteMessage (-100) 500].
Proof.
  assert (Hnick : has_nick blank_world 8 [])
    by (do 2 eexists; split; reflexivity).
  split; [exact Hnick|].
  destruct (empty_nick_gives_reminder (bob_says "hi") (py "hi") blank_world
              ltac:(left; reflexivity) ltac:(split; reflexivity)
              eq_refl Hnick) as [rest [Hcalls _]].
  rewrite Hcalls. vm_compute in Hcalls. vm_compute.
  injection Hcalls as <-. reflexivity.
Defined.

(** X17.  When the relay post itself fails the exception goes to the
    caller: the handler raises it, has awaited the post and nothing
    else, so the original message is not deleted, and has logged
    nothing. *)
Theorem failed_post_is_raised update body nick w e after :
  in_group update -> non_command_text update body ->
  first_fault 1 (db_faults w) = None ->
  has_nick w (user_id (effective_user update)) nick -> nick <> [] ->
  await_faults w = Some e :: after ->
  let run := handle_group_message update w in
  fst run = Raises e
  /\ calls (snd run) = calls w ++ [relay_post update nick body]
  /\ log (snd run) = log w
  /\ users (snd run) = users w.
Proof.
  intros Hgroup Htext Hdb Hnick Hne Hawait run. subst run.
  rewrite (handle_group_message_lookup update body w Hgroup Htext).
  rewrite (bind_returns _ _ _ _ _ (get_user_nick_found w _ nick Hdb Hnick)).
  destruct nick as [|c nick]; [contradiction|].
  unfold relay_post.
  destruct w as [t dbf awf clk n mid cs lg]. simpl in Hawait. subst awf.
  run_bot. repeat split; reflexivity.
Qed.

Lemma failed_post_is_raised_witness :
  has_nick (platform_down hero_world) 7 (py "Hero")
  /\ fst (handle_group_message (alice_says "t") (platform_down hero_world))
     = Raises TelegramError
  /\ calls (snd (handle_group_message (alice_says "t")
                   (platform_down hero_world)))
     = [relay_post (alice_says "t") (py "Hero") (py "t")].
Proof.
  assert (Hnick : has_nick (platform_down hero_world) 7 (py "Hero"))
    by (do 2 eexists; split; reflexivity).
  split; [exact Hnick|].
  destruct (failed_post_is_raised (alice_says "t") (py "t") (py "Hero")
              (platform_down hero_world) TelegramError []
              ltac:(left; reflexivity) ltac:(split; reflexivity)
              eq_refl Hnick ltac:(discriminate) eq_refl)
    as [Hret [Hcalls _]].
  split; [exact Hret|exact Hcalls].
Defined.

(** ** /find, further *)

Lemma find_command_runs_search ilike update args w :
  args <> [] ->
  find_command ilike update args w
  = bind (DatabaseManager.search_nick ilike (join (py " ") args))
         (fun results =>
            reply_text update (find_response (join (py " ") args) results)
                       (Some Markdown) None ;;
            ret tt) w.
Proof. intros Hargs. destruct args; [contradiction|reflexivity]. Qed.

(** X18.  [/find] cannot tell an outage from an empty result: when the
    search raises, the reply is the nothing-found text for the search
    string, after one ERROR record. *)
Theorem find_command_outage_reads_as_nothing_found ilike update args w e :
  args <> [] ->
  first_fault 1 (db_faults w) = Some e -> is_Exception e = true ->
  let w' := snd (find_command ilike update args w) in
  calls w'
  = calls w ++ [markdown_reply update (Texts.nothing_found (join (py " ") args))]
  /\ log w' = log w ++ [(ERROR, search_failed e)].
Proof.
  intros Hargs Hf He w'. subst w'.
  destruct (search_nick_fails ilike (join (py " ") args) w e Hf He)
    as [w1 [Hsearch [_ [Hcalls1 Hlog1]]]].
  rewrite (find_command_runs_search ilike update args w Hargs).
  rewrite (bind_returns _ _ _ _ _ Hsearch).
  destruct (reply_and_return_frame update
              (find_response (join (py " ") args) []) (Some Markdown) None w1)
    as [Hcalls [_ [_ Hlog]]].
  rewrite Hcalls, Hlog, Hcalls1, Hlog1. split; reflexivity.
Qed.

Lemma find_command_outage_reads_as_nothing_found_witness :
  calls (snd (find_command ascii_ilike (alice_says "/find pro") [py "pro"]
                (backend_down trio_world)))
  = [SendMessage (-100)
       (Texts.nothing_found (py "pro"))
       (Some Markdown) (Some 42%Z)].
Proof.
  exact (proj1 (find_command_outage_reads_as_nothing_found ascii_ilike
                  (alice_says "/find pro") [py "pro"]
                  (backend_down trio_world) APIError
                  ltac:(discriminate) eq_refl eq_refl)).
Defined.

(** X19.  With the backend up, the one reply of [/find] is the
    nothing-found text when no row matches, and otherwise the header
    followed by the numbered lines of the first ten matching rows in
    table order, and nothing after them. *)
Theorem find_command_lists_first_ten ilike update args w :
  args <> [] -> first_fault 1 (db_faults w) = None ->
  let search_text := join (py " ") args in
  let matching :=
    filter (DatabaseManager.matches ilike search_text) (users w) in
  calls (snd (find_command ilike update args w))
  = calls w
    ++ [markdown_reply update
          match matching with
          | [] => Texts.nothing_found search_text
          | _ :: _ =>
            Texts.found_header search_text
            ++ found_lines (map found_of (firstn 10 matching))
          end].
Proof.
  intros Hargs Hup search_text matching.
  destruct (search_nick_ok ilike search_text w Hup)
    as [w1 [Hsearch [_ [Hcalls1 _]]]].
  rewrite (find_command_runs_search ilike update args w Hargs).
  fold search_text. rewrite (bind_returns _ _ _ _ _ Hsearch).
  fold matching.
  destruct (reply_and_return_frame update
              (find_response search_text (map found_of (firstn 10 matching)))
              (Some Markdown) None w1)
    as [Hcalls _].
  rewrite Hcalls, Hcalls1. unfold markdown_reply. do 3 f_equal.
  destruct matching as [|r rest]; [reflexivity|].
  assert (Hlen : List.length (map found_of (firstn 10 (r :: rest))) <= 10).
  { rewrite length_map. apply firstn_le_length. }
  change (firstn 10 (r :: rest)) with (r :: firstn 9 rest) in *.
  cbn [map] in *.
  exact (find_response_at_most_10 search_text _ _ Hlen).
Qed.

Lemma find_command_lists_first_ten_witness :
  calls (snd (find_command ascii_ilike (alice_says "/find pro") [py "pro"]
                trio_world))
  = [SendMessage (-100)
       (Texts.found_header (py "pro")
        ++ Texts.found_line 1 (mkFound (py "Ann") (py "ProPlayer"))
        ++ Texts.found_line 2 (mkFound (py "Ben") (py "ProGamer")))
       (Some Markdown) (Some 42%Z)].
Proof.
  rewrite (find_command_lists_first_ten ascii_ilike (alice_says "/find pro")
             [py "pro"] trio_world ltac:(discriminate) eq_refl).
  vm_compute. reflexivity.
Defined.

(** ** /stats and /mynick *)

Lemma stats_command_reply format_date update w stats w1 :
  DatabaseManager.get_stats w = (Returns stats, w1) ->
  calls (snd (stats_command format_date update w))
  = calls w1 ++ [markdown_reply update (stats_response format_date stats)].
Proof.
  intros Hstats. unfold stats_command.
  rewrite (bind_returns _ _ _ _ _ Hstats).
  exact (proj1 (reply_and_return_frame update _ (Some Markdown) None w1)).
Qed.

(** X20.  [/stats] cannot tell an outage from an empty table: with no
    rows and the backend up, and equally when a round trip of the count
    raises, the one reply is the header with a total of 0 followed
    directly by the footer, without a list of players. *)
Theorem stats_command_empty_or_outage format_date update w :
  (users w = [] /\ first_fault 2 (db_faults w) = None)
  \/ (exists e, first_fault 2 (db_faults w) = Some e
                /\ is_Exception e = true) ->
  calls (snd (stats_command format_date update w))
  = calls w ++ [markdown_reply update (Pages.stats_head 0 ++ Pages.stats_tail)].
Proof.
  intros [[Hempty Hup]|[e [Hf He]]].
  - destruct (get_stats_ok w Hup) as [w1 [Hstats [_ [Hcalls1 _]]]].
    rewrite (stats_command_reply format_date update w _ w1 Hstats).
    rewrite Hcalls1, Hempty. reflexivity.
  - destruct (get_stats_fails w e Hf He) as [w1 [Hstats [_ [Hcalls1 _]]]].
    rewrite (stats_command_reply format_date update w _ w1 Hstats).
    rewrite Hcalls1. reflexivity.
Qed.

Lemma stats_command_empty_or_outage_witness :
  calls (snd (stats_command decimal_date (alice_says "/stats") ticking_world))
  = [SendMessage (-100) (Pages.stats_head 0 ++ Pages.stats_tail)
                 (Some Markdown) (Some 42%Z)]
  /\ calls (snd (stats_command decimal_date (alice_says "/stats")
                   (backend_down trio_world)))
     = [SendMessage (-100) (Pages.stats_head 0 ++ Pages.stats_tail)
                    (Some Markdown) (Some 42%Z)].
Proof.
  split.
  - exact (stats_command_empty_or_outage decimal_date (alice_says "/stats")
             ticking_world (or_introl (conj eq_refl eq_refl))).
  - exact (stats_command_empty_or_outage decimal_date (alice_says "/stats")
             (backend_down trio_world)
             (or_intror (ex_intro _ APIError (conj eq_refl eq_refl)))).
Defined.

(** X21.  With the backend up and rows in the table, the reply of
    [/stats] gives the number of rows and, under the title, one numbered
    line for each of the newest five rows, newest first, each with its
    date as formatted, or with the word for today when the date cannot
    be formatted. *)
Theorem stats_command_lists_newest format_date update w :
  first_fault 2 (db_faults w) = None -> users w <> [] ->
  exists ordered,
    Permutation ordered (users w)
    /\ Sorted not_older ordered
    /\ calls (snd (stats_command format_date update w))
       = calls w
         ++ [markdown_reply update
               (Pages.stats_head (List.length (users w))
                ++ (Pages.stats_recent_title
                    ++ List.concat
                         (map (fun p => Pages.stats_line (fst p) (snd p)
                                          (date_str format_date (snd p)))
                              (enumerate1 (map recent_of (firstn 5 ordered)))))
                ++ Pages.stats_tail)].
Proof.
  intros Hup Hrows.
  exists (order_created_at_desc (users w)).
  split; [exact (proj2 (order_created_at_desc_spec (users w)))|].
  split; [exact (proj1 (order_created_at_desc_spec (users w)))|].
  set (newest := map recent_of (firstn 5 (order_created_at_desc (users w)))).
  destruct (get_stats_ok w Hup) as [w1 [Hstats [_ [Hcalls1 _]]]].
  rewrite (stats_command_reply format_date update w _ w1 Hstats), Hcalls1.
  unfold stats_response. cbn [DatabaseManager.total DatabaseManager.recent].
  fold newest.
  assert (Hlen : List.length newest <= 5).
  { unfold newest. rewrite length_map. apply firstn_le_length. }
  assert (Hne : newest <> []).
  { unfold newest. intros Hnil.
    apply (f_equal (@List.length RecentRow)) in Hnil.
    rewrite length_map, length_firstn in Hnil.
    rewrite (Permutation_length (proj2 (order_created_at_desc_spec (users w))))
      in Hnil.
    destruct (users w); [contradiction|simpl in Hnil; discriminate]. }
  rewrite (firstn_all2 newest Hlen).
  destruct newest; [contradiction|reflexivity].
Qed.

Lemma stats_command_lists_newest_witness :
  calls (snd (stats_command (fun _ _ => None) (alice_says "/stats") trio_world))
  = [SendMessage (-100)
       (Pages.stats_head 3
        ++ Pages.stats_recent_title
        ++ Pages.stats_line 1 (mkRecent (py "Ben") (py "ProGamer") 30)
                            Pages.today
        ++ Pages.stats_line 2 (mkRecent (py "Cy") (py "Zed") 20) Pages.today
        ++ Pages.stats_line 3 (mkRecent (py "Ann") (py "ProPlayer") 10)
                            Pages.today
        ++ Pages.stats_tail)
       (Some Markdown) (Some 42%Z)].
Proof.
  destruct (stats_command_lists_newest (fun _ _ => None) (alice_says "/stats")
              trio_world eq_refl ltac:(discriminate))
    as [ordered [_ [_ Hcalls]]].
  rewrite Hcalls. vm_compute in Hcalls. vm_compute.
  injection Hcalls as <-. reflexivity.
Defined.

(** X22.  [/mynick] survives a failed date lookup: when the nickname was
    found and the second round trip raises anything at all, even what is
    not an [Exception], the reply shows the nickname without a date,
    nothing is logged and, the reply going through, the handler returns
    normally. *)
Theorem mynick_command_without_date format_date update nick w e :
  first_fault 1 (db_faults w) = None ->
  has_nick w (user_id (effective_user update)) nick -> nick <> [] ->
  first_fault 1 (skipn 1 (db_faults w)) = Some e ->
  let run := mynick_command format_date update w in
  calls (snd run) = calls w ++ [markdown_reply update (Pages.my_nick nick [])]
  /\ log (snd run) = log w
  /\ (first_fault 1 (await_faults w) = None -> fst run = Returns tt).
Proof.
  intros Hup Hnick Hne Hf run. subst run. unfold mynick_command.
  rewrite (bind_returns _ _ _ _ _
             (get_user_nick_found w _ nick Hup Hnick)).
  destruct nick as [|c nick]; [contradiction|].
  unfold markdown_reply.
  destruct w as [t dbf awf clk n mid cs lg].
  destruct dbf as [|[e1|] [|[e2|] dbf]]; simpl in Hup, Hf; try discriminate.
  injection Hf as ->.
  unfold try_except_all, bind, execute, ret. simpl.
  destruct awf as [|[e3|] awf]; run_bot;
    repeat split; try reflexivity; intros; discriminate.
Qed.

Lemma mynick_command_without_date_witness :
  has_nick (cut_off_second hero_world) 7 (py "Hero")
  /\ fst (mynick_command decimal_date (alice_says "/mynick")
            (cut_off_second hero_world)) = Returns tt
  /\ calls (snd (mynick_command decimal_date (alice_says "/mynick")
                   (cut_off_second hero_world)))
     = [SendMessage (-100)
       (Pages.my_nick (py "Hero") [])
       (Some Markdown) (Some 42%Z)].
Proof.
  assert (Hnick : has_nick (cut_off_second hero_world) 7 (py "Hero"))
    by (do 2 eexists; split; reflexivity).
  split; [exact Hnick|].
  destruct (mynick_command_without_date decimal_date (alice_says "/mynick")
              (py "Hero") (cut_off_second hero_world) CancelledError
              eq_refl Hnick ltac:(discriminate) eq_refl)
    as [Hcalls [_ Hret]].
  split; [exact (Hret eq_refl)|exact Hcalls].
Defined.

(** X23.  With the backend up, [/mynick] for a sender with a nickname
    shows the nickname followed by the date formatted from the
    [created_at] of the sender's first row, and by nothing when that
    date cannot be formatted. *)
Theorem mynick_command_shows_date format_date update nick r rest w :
  first_fault 2 (db_faults w) = None ->
  rows_of (user_id (effective_user update)) (users w) = r :: rest ->
  game_nick r = nick -> nick <> [] ->
  calls (snd (mynick_command format_date update w))
  = calls w
    ++ [markdown_reply update
          (Pages.my_nick nick
             match format_date (py " (%d.%m.%Y)") (created_at r) with
             | Some formatted => formatted
             | None => []
             end)].
Proof.
  intros Hup Hrows Hgame Hne. unfold mynick_command.
  assert (Hnick : has_nick w (user_id (effective_user update)) nick)
    by (exists r, rest; split; assumption).
  destruct (first_fault_skipn 1 1 _ Hup) as [Hup1 Hup2].
  rewrite (bind_returns _ _ _ _ _
             (get_user_nick_found w _ nick Hup1 Hnick)).
  destruct nick as [|c nick]; [contradiction|].
  unfold markdown_reply, rows_of in *.
  destruct w as [t dbf awf clk n mid cs lg].
  destruct dbf as [|[e1|] [|[e2|] dbf]]; simpl in Hup, Hrows;
    try discriminate;
    unfold try_except_all, bind, execute, ret; simpl; rewrite Hrows;
    destruct (format_date (py " (%d.%m.%Y)") (created_at r));
    destruct awf as [|[e3|] awf]; run_bot; reflexivity.
Qed.

Lemma mynick_command_shows_date_witness :
  calls (snd (mynick_command decimal_date (alice_says "/mynick") hero_world))
  = [SendMessage (-100)
       (Pages.my_nick (py "Hero") (py "900"))
       (Some Markdown) (Some 42%Z)].
Proof.
  exact (mynick_command_shows_date decimal_date (alice_says "/mynick")
           (py "Hero") _ [] hero_world eq_refl eq_refl eq_refl
           ltac:(discriminate)).
Defined.
